(** * Blender title scripts: parameter injection helpers

    A shallow embedding of the helper functions and of the render-settings
    tail shared by [lens_flare.py], [neon_curves.py] and
    [spacemovie_intro.py], together with the properties the specification
    states about them.

    Python values are an inductive type, floats are IEEE binary64 values
    (Rocq's primitive floats), exceptions are an explicit result type, and
    the host application's data (actions, F-curves, materials, sockets,
    render settings) is an explicit state threaded through the code. *)

From Stdlib Require Import ZArith Floats.
From stdpp Require Import gmap strings list fin_maps.

Local Open Scope Z_scope.
Set Warnings "-register-all,-inexact-float".

(** ** Python values and exceptions *)

(** The values a parameter can take after [json.loads]: [null], booleans,
    integers, floats, strings, arrays and objects.  Object keys are
    strings, as JSON has them. *)
Inductive pyval : Type :=
  | PNone
  | PBool (b : bool)
  | PInt (z : Z)
  | PFloat (f : float)
  | PStr (s : string)
  | PList (l : list pyval)
  | PDict (d : list (string * pyval)).

(** The exception classes the modelled code can meet.  [ReferenceError]
    is what the host raises on a handle to a removed struct. *)
Inductive pyexn : Type :=
  | TypeError
  | IndexError
  | KeyError
  | ValueError
  | OverflowError
  | AttributeError
  | ReferenceError.

(** The outcome of an expression: a value or a raised exception. *)
Inductive pyres (A : Type) : Type :=
  | Ok (a : A)
  | Raise (e : pyexn).
Arguments Ok {A} a.
Arguments Raise {A} e.

#[global] Instance pyres_ret : MRet pyres := fun _ a => Ok a.
#[global] Instance pyres_bind : MBind pyres := fun _ _ k r =>
  match r with
  | Ok a => k a
  | Raise e => Raise e
  end.

(** [try: body except Exception: handler] *)
Definition try_except {A : Type} (body handler : pyres A) : pyres A :=
  match body with
  | Ok a => Ok a
  | Raise _ => handler
  end.

(** [len(v)]: defined on strings, lists and dicts. *)
Definition py_len (v : pyval) : pyres nat :=
  match v with
  | PStr s => Ok (String.length s)
  | PList l => Ok (length l)
  | PDict d => Ok (length d)
  | _ => Raise TypeError
  end.

(** [v[i]] for a literal index [i >= 0].  A list gives its element, a
    string its one-character substring, a dict with string keys has no
    integer key. *)
Definition py_getitem (v : pyval) (i : nat) : pyres pyval :=
  match v with
  | PList l =>
      match l !! i with
      | Some x => Ok x
      | None => Raise IndexError
      end
  | PStr s =>
      match String.get i s with
      | Some c => Ok (PStr (String c EmptyString))
      | None => Raise IndexError
      end
  | PDict _ => Raise KeyError
  | _ => Raise TypeError
  end.

(** ** [ensure_rgba] *)

Definition one : float := 1%float.

Definition ensure_rgba (color : pyval) : pyres pyval :=
  n ← py_len color;
  if (4 <=? n)%nat then Ok color
  else
    c0 ← py_getitem color 0;
    c1 ← py_getitem color 1;
    c2 ← py_getitem color 2;
    Ok (PList [c0; c1; c2; PFloat one]).

(** ** Numeric builtins: [float] and [round] *)

(** [float(n)] for an integer: the nearest binary64 value, ties to even;
    an integer beyond the finite range raises [OverflowError]. *)
Definition float_of_int (z : Z) : pyres float :=
  match binary_normalize prec emax z 0 false with
  | S754_infinity _ => Raise OverflowError
  | sf => Ok (SF2Prim sf)
  end.

(** The integer nearest to [m * 2^e], ties to even. *)
Definition round_half_even (m : positive) (e : Z) : Z :=
  match e with
  | Zneg k =>
      let d := Z.pow_pos 2 k in
      let q := Z.pos m / d in
      let r := Z.pos m mod d in
      match 2 * r ?= d with
      | Lt => q
      | Gt => q + 1
      | Eq => if Z.even q then q else q + 1
      end
  | _ => Z.pos m * 2 ^ e
  end.

(** [round(x)] with one argument: an [int] result. *)
Definition py_round (v : pyval) : pyres Z :=
  match v with
  | PInt z => Ok z
  | PBool b => Ok (if b then 1 else 0)
  | PFloat f =>
      match Prim2SF f with
      | S754_zero _ => Ok 0
      | S754_infinity _ => Raise OverflowError
      | S754_nan => Raise ValueError
      | S754_finite sg m e =>
          Ok (if sg then - round_half_even m e else round_half_even m e)
      end
  | _ => Raise TypeError
  end.

Section StringParsing.

(** Python's parser of float literals in strings is a builtin of the
    interpreter; the development is parametric in it. *)
Variable str_to_float : string -> option float.

(** [float(v)] *)
Definition py_float (v : pyval) : pyres float :=
  match v with
  | PFloat f => Ok f
  | PInt z => float_of_int z
  | PBool b => Ok (if b then 1%float else 0%float)
  | PStr s =>
      match str_to_float s with
      | Some f => Ok f
      | None => Raise ValueError
      end
  | _ => Raise TypeError
  end.

(** ** [_safe_rgba] *)

Definition gray (v : float) : pyval :=
  PList [PFloat v; PFloat v; PFloat v; PFloat one].

Definition _safe_rgba (value : pyval) : pyres pyval :=
  try_except (ensure_rgba value)
    (try_except (v ← py_float value; Ok (gray v))
       (Ok (PList [PFloat one; PFloat one; PFloat one; PFloat one]))).

End StringParsing.

(** A sequence in Python's sense: indexable by position. *)
Definition is_sequence (v : pyval) : bool :=
  match v with
  | PList _ | PStr _ => true
  | _ => false
  end.

(** The values on which [ensure_rgba] raises: those without a length,
    sequences of fewer than 3 components, and dicts of fewer than 4
    entries (a dict of string keys has no item [0]). *)
Definition rgba_raises (v : pyval) : bool :=
  match v with
  | PList l => (length l <? 3)%nat
  | PStr s => (String.length s <? 3)%nat
  | PDict d => (length d <? 4)%nat
  | _ => true
  end.

Definition white : pyval :=
  PList [PFloat one; PFloat one; PFloat one; PFloat one].

(** What the specification asks of a result: a list of exactly four
    components. *)
Definition four_components (v : pyval) : Prop :=
  exists a b c d : pyval, v = PList [a; b; c; d].

(** ** Host state and the state-and-exception monad *)

(** Code that mutates host data is a function from the state before to
    the state after and an outcome.  A raised exception keeps the
    mutations made before it, as in Python. *)
Definition host (S A : Type) : Type := S -> S * pyres A.

#[global] Instance host_ret {S : Type} : MRet (host S) :=
  fun _ a s => (s, Ok a).
#[global] Instance host_bind {S : Type} : MBind (host S) :=
  fun _ _ k m s =>
    match m s with
    | (s', Ok a) => k a s'
    | (s', Raise e) => (s', Raise e)
    end.

(** A pure, possibly raising, expression evaluated in host code. *)
Definition lift {S A : Type} (r : pyres A) : host S A := fun s => (s, r).
Definition get_state {S : Type} : host S S := fun s => (s, Ok s).
Definition modify {S : Type} (f : S -> S) : host S unit :=
  fun s => (f s, Ok tt).

(** ** Animation data: keyframe points, F-curves, actions *)

Record vec2 : Type := { vx : pyval; vy : pyval }.

Record keyframe_point : Type := {
  co : pyval * pyval;
  handle_left : vec2;
  handle_right : vec2
}.

Record fcurve : Type := {
  data_path : string;
  array_index : Z;
  keyframe_points : list keyframe_point
}.

(** F-curves are host objects with identity: collections and the
    [by_index] dict hold handles, and the objects live in a store. *)
Definition fref : Type := nat.

(** The layered layout of newer host versions.  An attribute that is
    absent ([hasattr] false, [getattr] default) is [None]. *)
Record channelbag : Type := { bag_fcurves : option (list fref) }.
Record strip : Type := { strip_channelbags : option (list channelbag) }.
Record layer : Type := { layer_strips : option (list strip) }.
Record action : Type := {
  act_fcurves : option (list fref);
  act_layers : option (list layer)
}.

(** ** [get_action_fcurves] *)

(** The three nested loops; the [return] inside leaves all of them. *)
Fixpoint scan_bags (bags : list channelbag) : option (list fref) :=
  match bags with
  | [] => None
  | bag :: rest =>
      match bag_fcurves bag with
      | Some curves => Some curves
      | None => scan_bags rest
      end
  end.

Fixpoint scan_strips (strips : list strip) : option (list fref) :=
  match strips with
  | [] => None
  | st :: rest =>
      match scan_bags (default [] (strip_channelbags st)) with
      | Some curves => Some curves
      | None => scan_strips rest
      end
  end.

Fixpoint scan_layers (layers : list layer) : option (list fref) :=
  match layers with
  | [] => None
  | ly :: rest =>
      match scan_strips (default [] (layer_strips ly)) with
      | Some curves => Some curves
      | None => scan_layers rest
      end
  end.

Definition get_action_fcurves (a : action) : pyres (list fref) :=
  match act_fcurves a with
  | Some curves => Ok curves
  | None =>
      match scan_layers (default [] (act_layers a)) with
      | Some curves => Ok curves
      | None => Raise AttributeError
      end
  end.

(** The channelbags of an action in traversal order: layers, then the
    strips of each layer, then the channelbags of each strip. *)
Definition all_bags (a : action) : list channelbag :=
  ly ← default [] (act_layers a);
  st ← default [] (layer_strips ly);
  default [] (strip_channelbags st).

(** The first collection that is not [None] in a list of channelbags. *)
Definition first_curves (bags : list channelbag) : option (list fref) :=
  head (omap bag_fcurves bags).

(** ** Materials: shader nodes and their input sockets *)

(** A key inserted by [keyframe_insert("default_value", ...)]: the
    component index when one is given, the frame, and the socket value at
    the time of the call. *)
Record inserted_key : Type := {
  key_index : option nat;
  key_frame : pyval;
  key_value : pyval
}.

Record socket : Type := {
  sock_name : string;
  sock_type : string;
  default_value : pyval;
  sock_keys : list inserted_key
}.

Record node : Type := { inputs : list socket }.
Record node_tree : Type := { nodes : gmap string node }.

Record material : Type := {
  diffuse_color : pyval;
  specular_color : pyval;
  mat_node_tree : option node_tree
}.

(** [bpy.data]: datablocks by name, and the store of F-curve objects. *)
Record bpy_data : Type := {
  actions : gmap string action;
  fcurves : gmap fref fcurve;
  materials : gmap string material
}.

Definition set_fcurves (h : gmap fref fcurve) (st : bpy_data) : bpy_data :=
  {| actions := actions st; fcurves := h; materials := materials st |}.

Definition set_materials (ms : gmap string material) (st : bpy_data)
  : bpy_data :=
  {| actions := actions st; fcurves := fcurves st; materials := ms |}.

Definition set_diffuse_color (v : pyval) (m : material) : material :=
  {| diffuse_color := v; specular_color := specular_color m;
     mat_node_tree := mat_node_tree m |}.

Definition set_specular_color (v : pyval) (m : material) : material :=
  {| diffuse_color := diffuse_color m; specular_color := v;
     mat_node_tree := mat_node_tree m |}.

Definition set_default_value (v : pyval) (sk : socket) : socket :=
  {| sock_name := sock_name sk; sock_type := sock_type sk;
     default_value := v; sock_keys := sock_keys sk |}.

(** [socket.keyframe_insert("default_value", index=idx, frame=frame)] *)
Definition keyframe_insert (idx : option nat) (frame : pyval) (sk : socket)
  : socket :=
  {| sock_name := sock_name sk; sock_type := sock_type sk;
     default_value := default_value sk;
     sock_keys := sock_keys sk ++
       [{| key_index := idx; key_frame := frame;
           key_value := default_value sk |}] |}.

(** Run code written against an object on the object found by [get] in
    the enclosing state, and store the object back with [put]. *)
Definition zoom {S T A : Type} (get : S -> option T) (put : T -> S -> S)
    (m : host T A) : host S A :=
  fun s =>
    match get s with
    | Some t => let '(t', r) := m t in (put t' s, r)
    | None => (s, Raise ReferenceError)
    end.

(** [for x in xs: body(x)]; an exception ends the loop. *)
Fixpoint for_each {S A : Type} (xs : list A) (body : A -> host S unit)
  : host S unit :=
  match xs with
  | [] => mret tt
  | x :: rest => body x;; for_each rest body
  end.

Definition enumerate {A : Type} (xs : list A) : list (nat * A) :=
  imap (fun i x => (i, x)) xs.

(** ** [update_color_fcurves] *)

(** [fc.attr] on a handle: the host raises on a removed object. *)
Definition deref (r : fref) : host (gmap fref fcurve) fcurve :=
  fun h =>
    (h, match h !! r with
        | Some fc => Ok fc
        | None => Raise ReferenceError
        end).

(** [{fc.array_index: fc for fc in fcurves}]: a later curve replaces an
    earlier one of the same index. *)
Fixpoint index_curves (h : gmap fref fcurve) (curves : list fref)
    (by_index : gmap Z fref) : pyres (gmap Z fref) :=
  match curves with
  | [] => Ok by_index
  | r :: rest =>
      match h !! r with
      | Some fc => index_curves h rest (<[array_index fc := r]> by_index)
      | None => Raise ReferenceError
      end
  end.

(** The three assignments to one keyframe point. *)
Definition write_point (frame value : pyval) (kp : keyframe_point)
  : keyframe_point :=
  {| co := (frame, value);
     handle_left := {| vx := vx (handle_left kp); vy := value |};
     handle_right := {| vx := vx (handle_right kp); vy := value |} |}.

Definition set_keyframe (point : nat) (frame value : pyval) (fc : fcurve)
  : fcurve :=
  {| data_path := data_path fc;
     array_index := array_index fc;
     keyframe_points :=
       alter (write_point frame value) point (keyframe_points fc) |}.

(** The body of the inner loop, for channel [i] of keyframe [point]. *)
Definition update_channel (by_index : gmap Z fref) (point : nat)
    (frame color : pyval) (i : nat) : host (gmap fref fcurve) unit :=
  match by_index !! Z.of_nat i with
  | None => mret tt
  | Some r =>
      fc ← deref r;
      if (length (keyframe_points fc) <=? point)%nat then mret tt
      else
        value ← lift (py_getitem color i);
        modify (alter (set_keyframe point frame value) r)
  end.

Definition update_color_fcurves (action_name : string)
    (keyframes : list (pyval * pyval)) : host bpy_data (option string) :=
  st ← get_state;
  match actions st !! action_name with
  | None => mret None
  | Some a =>
      curves ← lift (get_action_fcurves a);
      by_index ← lift (index_curves (fcurves st) curves ∅);
      zoom (fun st => Some (fcurves st)) set_fcurves
        (for_each (enumerate keyframes) (fun '(point, (frame, color)) =>
           for_each (seq 0 3) (update_channel by_index point frame color)));;
      mret (Some action_name)
  end.

(** ** Socket keyframing *)

Definition keyframe_color_socket (keyframes : list (pyval * pyval))
  : host socket unit :=
  for_each keyframes (fun '(frame, color) =>
    rgba ← lift (ensure_rgba color);
    modify (set_default_value rgba);;
    for_each (seq 0 4) (fun idx => modify (keyframe_insert (Some idx) frame))).

Definition keyframe_value_socket (value : pyval) (frames : list pyval)
  : host socket unit :=
  modify (set_default_value value);;
  for_each frames (fun frame => modify (keyframe_insert None frame)).

(** ** [keyframe_principled] *)

Definition principled : string := "Principled BSDF".

Definition _get_principled_node (mat : material) : option node :=
  match mat_node_tree mat with
  | Some nt => nodes nt !! principled
  | None => None
  end.

(** [pat in s] on strings. *)
Fixpoint contains (pat s : string) : bool :=
  String.prefix pat s ||
  match s with
  | EmptyString => false
  | String _ rest => contains pat rest
  end.

(** [x[:3]]: the first three components.  A dict has no slices. *)
Definition py_slice3 (v : pyval) : pyres pyval :=
  match v with
  | PList l => Ok (PList (take 3 l))
  | PStr s => Ok (PStr (String.substring 0 3 s))
  | _ => Raise TypeError
  end.

(** Position of the first socket satisfying [test]. *)
Definition find_socket (test : socket -> bool) (ins : list socket)
  : option nat :=
  fst <$> list_find (fun sk => test sk = true) ins.

(** [bsdf.inputs[i] if len(bsdf.inputs) > i else None] *)
Definition socket_at (i : nat) (ins : list socket) : option nat :=
  if (i <? length ins)%nat then Some i else None.

Definition is_rgba (sk : socket) : bool := String.eqb (sock_type sk) "RGBA".

(** Sockets are named by their position in the inputs of the principled
    node of the material; code against a socket runs on that object. *)
Definition socket_of (material_name : string) (i : nat) (st : bpy_data)
  : option socket :=
  mat ← materials st !! material_name;
  bsdf ← _get_principled_node mat;
  inputs bsdf !! i.

Definition put_socket (material_name : string) (i : nat) (sk : socket)
    (st : bpy_data) : bpy_data :=
  set_materials
    (alter (fun mat =>
       {| diffuse_color := diffuse_color mat;
          specular_color := specular_color mat;
          mat_node_tree :=
            (fun nt =>
               {| nodes := alter (fun nd => {| inputs := <[i := sk]> (inputs nd) |})
                                 principled (nodes nt) |})
              <$> mat_node_tree mat |})
       material_name (materials st))
    st.

Definition on_socket {A : Type} (material_name : string) (i : nat)
    (m : host socket A) : host bpy_data A :=
  zoom (socket_of material_name i) (put_socket material_name i) m.

Definition on_material (material_name : string) (f : material -> material)
  : host bpy_data unit :=
  modify (fun st => set_materials (alter f material_name (materials st)) st).

Definition keyframe_principled (material_name : string)
    (base_keyframes emission_keyframes : option (list (pyval * pyval)))
    (emission_strength : option (pyval * list pyval))
    (viewport_color specular_value specular_color : option pyval)
  : host bpy_data (option string) :=
  st ← get_state;
  match materials st !! material_name with
  | None => mret None
  | Some mat =>
      match viewport_color with
      | Some c =>
          rgba ← lift (ensure_rgba c);
          on_material material_name (set_diffuse_color rgba)
      | None => mret tt
      end;;
      match specular_color with
      | Some c =>
          rgba ← lift (ensure_rgba c);
          rgb ← lift (py_slice3 rgba);
          on_material material_name (set_specular_color rgb)
      | None => mret tt
      end;;
      match _get_principled_node mat with
      | None => mret (Some material_name)
      | Some bsdf =>
          let ins := inputs bsdf in
          let base_sock :=
            find_socket (fun sk => String.eqb (sock_name sk) "Base Color") ins in
          let emission_sock := socket_at 27 ins in
          let emission_strength_sock := socket_at 28 ins in
          let ior_sock := socket_at 3 ins in
          let specular_tint_sock :=
            match find_socket
                    (fun sk => contains "Specular Tint" (sock_name sk)
                               && is_rgba sk) ins with
            | Some i => Some i
            | None =>
                if (14 <? length ins)%nat
                   && from_option is_rgba false (ins !! 14%nat)
                then Some 14%nat else None
            end in
          match base_sock, base_keyframes with
          | Some i, Some ((_ :: _) as kfs) =>
              on_socket material_name i (keyframe_color_socket kfs)
          | _, _ => mret tt
          end;;
          match emission_sock, emission_keyframes with
          | Some i, Some ((_ :: _) as kfs) =>
              on_socket material_name i (keyframe_color_socket kfs)
          | _, _ => mret tt
          end;;
          match emission_strength_sock, emission_strength with
          | Some i, Some (value, frames) =>
              on_socket material_name i (keyframe_value_socket value frames)
          | _, _ => mret tt
          end;;
          match ior_sock, specular_value with
          | Some i, Some v =>
              on_socket material_name i (modify (set_default_value v))
          | _, _ => mret tt
          end;;
          match specular_tint_sock, specular_color with
          | Some i, Some c =>
              rgba ← lift (ensure_rgba c);
              on_socket material_name i (modify (set_default_value rgba))
          | _, _ => mret tt
          end;;
          mret (Some material_name)
      end
  end.

(** ** Arithmetic on values *)

(** The integer value of an [int] or [bool]. *)
Definition as_int (v : pyval) : option Z :=
  match v with
  | PInt z => Some z
  | PBool b => Some (if b then 1 else 0)
  | _ => None
  end.

Definition as_float (v : pyval) : option (pyres float) :=
  match v with
  | PFloat f => Some (Ok f)
  | PInt _ | PBool _ => float_of_int <$> as_int v
  | _ => None
  end.

Fixpoint repeat_string (n : nat) (s : string) : string :=
  match n with
  | O => EmptyString
  | S n' => String.append s (repeat_string n' s)
  end.

(** [seq * n]: the sequence repeated [n] times, empty for [n <= 0]. *)
Definition repeat_seq (v : pyval) (n : Z) : option pyval :=
  match v with
  | PStr s => Some (PStr (repeat_string (Z.to_nat n) s))
  | PList l => Some (PList (mjoin (replicate (Z.to_nat n) l)))
  | _ => None
  end.

(** [a * b] *)
Definition py_mul (a b : pyval) : pyres pyval :=
  match as_int a, as_int b with
  | Some x, Some y => Ok (PInt (x * y))
  | Some n, None =>
      match repeat_seq b n, as_float a, as_float b with
      | Some r, _, _ => Ok r
      | None, Some fa, Some fb => x ← fa; y ← fb; Ok (PFloat (x * y)%float)
      | _, _, _ => Raise TypeError
      end
  | None, Some n =>
      match repeat_seq a n, as_float a, as_float b with
      | Some r, _, _ => Ok r
      | None, Some fa, Some fb => x ← fa; y ← fb; Ok (PFloat (x * y)%float)
      | _, _, _ => Raise TypeError
      end
  | None, None =>
      match as_float a, as_float b with
      | Some fa, Some fb => x ← fa; y ← fb; Ok (PFloat (x * y)%float)
      | _, _ => Raise TypeError
      end
  end.

(** [a == b] on numbers, exact between [int] and [float] as in Python;
    [false] on values that are not both numbers. *)
Definition int_eq_float (z : Z) (f : float) : bool :=
  match Prim2SF f with
  | S754_zero _ => z =? 0
  | S754_finite sg m e =>
      let v := if sg then Z.neg m else Z.pos m in
      match e with
      | Zneg k => z * Z.pow_pos 2 k =? v
      | _ => z =? v * 2 ^ e
      end
  | _ => false
  end.

Definition num_eqb (a b : pyval) : bool :=
  match as_int a, as_int b with
  | Some x, Some y => x =? y
  | Some x, None =>
      match b with PFloat f => int_eq_float x f | _ => false end
  | None, Some y =>
      match a with PFloat f => int_eq_float y f | _ => false end
  | None, None =>
      match a, b with
      | PFloat f, PFloat g => PrimFloat.eqb f g
      | _, _ => false
      end
  end.

(** ** The parameter dictionary *)

(** [d[key]] *)
Definition py_param (d : gmap string pyval) (key : string) : pyres pyval :=
  match d !! key with
  | Some v => Ok v
  | None => Raise KeyError
  end.

(** [d.update(other)]: every item of [other] is assigned into [d]. *)
Definition dict_update (d other : gmap string pyval) : gmap string pyval :=
  foldr (fun kv acc => <[kv.1 := kv.2]> acc) d (map_to_list other).

(** The hardcoded defaults of [lens_flare.py]. *)
Definition default_params : gmap string pyval :=
  list_to_map [
    ("title", PStr "Oh Yeah! OpenShot!");
    ("extrude", PFloat 0.1);
    ("bevel_depth", PFloat 0.02);
    ("spacemode", PStr "CENTER");
    ("text_size", PFloat 1.5);
    ("width", PFloat 1.0);
    ("fontname", PStr "Bfont");
    ("color", PList [PFloat 0.8; PFloat 0.8; PFloat 0.8]);
    ("alpha", PFloat 1.0);
    ("output_path", PStr "/tmp/");
    ("fps", PInt 24);
    ("quality", PInt 90);
    ("file_format", PStr "PNG");
    ("color_mode", PStr "RGBA");
    ("horizon_color", PList [PFloat 0.57; PFloat 0.57; PFloat 0.57]);
    ("resolution_x", PInt 1920);
    ("resolution_y", PInt 1080);
    ("resolution_percentage", PInt 100);
    ("start_frame", PInt 20);
    ("end_frame", PInt 25);
    ("animation", PBool true)
  ].

(** The merge of the injected parameters.  [None] stands for a script in
    which no [params_json] was injected: the [NameError] is passed over
    and the defaults stay as they are. *)
Definition merge_params (params : gmap string pyval)
    (params_json : option (gmap string pyval)) : gmap string pyval :=
  match params_json with
  | Some injected_params => dict_update params injected_params
  | None => params
  end.

(** ** Render settings and the tail of the script *)

(** [bpy.context.scene.render]; the two [image_settings] fields are kept
    in the same record. *)
Record render_settings : Type := {
  filepath : pyval;
  fps : pyval;
  fps_base : pyval;
  file_format : pyval;
  color_mode : pyval;
  film_transparent : pyval;
  resolution_x : pyval;
  resolution_y : pyval;
  resolution_percentage : pyval;
  frame_map_old : pyval;
  frame_map_new : pyval
}.

Record scene : Type := {
  render : render_settings;
  frame_start : pyval;
  frame_end : pyval
}.

Definition set_render (f : render_settings -> render_settings) (sc : scene)
  : scene :=
  {| render := f (render sc); frame_start := frame_start sc;
     frame_end := frame_end sc |}.

Definition set_filepath (v : pyval) (r : render_settings)
  : render_settings :=
  {| filepath := v; fps := fps r; fps_base := fps_base r;
     file_format := file_format r; color_mode := color_mode r;
     film_transparent := film_transparent r; resolution_x := resolution_x r;
     resolution_y := resolution_y r;
     resolution_percentage := resolution_percentage r;
     frame_map_old := frame_map_old r; frame_map_new := frame_map_new r |}.

Definition set_fps (v : pyval) (r : render_settings)
  : render_settings :=
  {| filepath := filepath r; fps := v; fps_base := fps_base r;
     file_format := file_format r; color_mode := color_mode r;
     film_transparent := film_transparent r; resolution_x := resolution_x r;
     resolution_y := resolution_y r;
     resolution_percentage := resolution_percentage r;
     frame_map_old := frame_map_old r; frame_map_new := frame_map_new r |}.

Definition set_fps_base (v : pyval) (r : render_settings)
  : render_settings :=
  {| filepath := filepath r; fps := fps r; fps_base := v;
     file_format := file_format r; color_mode := color_mode r;
     film_transparent := film_transparent r; resolution_x := resolution_x r;
     resolution_y := resolution_y r;
     resolution_percentage := resolution_percentage r;
     frame_map_old := frame_map_old r; frame_map_new := frame_map_new r |}.

Definition set_file_format (v : pyval) (r : render_settings)
  : render_settings :=
  {| filepath := filepath r; fps := fps r; fps_base := fps_base r;
     file_format := v; color_mode := color_mode r;
     film_transparent := film_transparent r; resolution_x := resolution_x r;
     resolution_y := resolution_y r;
     resolution_percentage := resolution_percentage r;
     frame_map_old := frame_map_old r; frame_map_new := frame_map_new r |}.

Definition set_color_mode (v : pyval) (r : render_settings)
  : render_settings :=
  {| filepath := filepath r; fps := fps r; fps_base := fps_base r;
     file_format := file_format r; color_mode := v;
     film_transparent := film_transparent r; resolution_x := resolution_x r;
     resolution_y := resolution_y r;
     resolution_percentage := resolution_percentage r;
     frame_map_old := frame_map_old r; frame_map_new := frame_map_new r |}.

Definition set_film_transparent (v : pyval) (r : render_settings)
  : render_settings :=
  {| filepath := filepath r; fps := fps r; fps_base := fps_base r;
     file_format := file_format r; color_mode := color_mode r;
     film_transparent := v; resolution_x := resolution_x r;
     resolution_y := resolution_y r;
     resolution_percentage := resolution_percentage r;
     frame_map_old := frame_map_old r; frame_map_new := frame_map_new r |}.

Definition set_resolution_x (v : pyval) (r : render_settings)
  : render_settings :=
  {| filepath := filepath r; fps := fps r; fps_base := fps_base r;
     file_format := file_format r; color_mode := color_mode r;
     film_transparent := film_transparent r; resolution_x := v;
     resolution_y := resolution_y r;
     resolution_percentage := resolution_percentage r;
     frame_map_old := frame_map_old r; frame_map_new := frame_map_new r |}.

Definition set_resolution_y (v : pyval) (r : render_settings)
  : render_settings :=
  {| filepath := filepath r; fps := fps r; fps_base := fps_base r;
     file_format := file_format r; color_mode := color_mode r;
     film_transparent := film_transparent r; resolution_x := resolution_x r;
     resolution_y := v; resolution_percentage := resolution_percentage r;
     frame_map_old := frame_map_old r; frame_map_new := frame_map_new r |}.

Definition set_resolution_percentage (v : pyval) (r : render_settings)
  : render_settings :=
  {| filepath := filepath r; fps := fps r; fps_base := fps_base r;
     file_format := file_format r; color_mode := color_mode r;
     film_transparent := film_transparent r; resolution_x := resolution_x r;
     resolution_y := resolution_y r; resolution_percentage := v;
     frame_map_old := frame_map_old r; frame_map_new := frame_map_new r |}.

Definition set_frame_map_old (v : pyval) (r : render_settings)
  : render_settings :=
  {| filepath := filepath r; fps := fps r; fps_base := fps_base r;
     file_format := file_format r; color_mode := color_mode r;
     film_transparent := film_transparent r; resolution_x := resolution_x r;
     resolution_y := resolution_y r;
     resolution_percentage := resolution_percentage r; frame_map_old := v;
     frame_map_new := frame_map_new r |}.

Definition set_frame_map_new (v : pyval) (r : render_settings)
  : render_settings :=
  {| filepath := filepath r; fps := fps r; fps_base := fps_base r;
     file_format := file_format r; color_mode := color_mode r;
     film_transparent := film_transparent r; resolution_x := resolution_x r;
     resolution_y := resolution_y r;
     resolution_percentage := resolution_percentage r;
     frame_map_old := frame_map_old r; frame_map_new := v |}.

Definition set_frame_start (v : pyval) (sc : scene) : scene :=
  {| render := render sc; frame_start := v; frame_end := frame_end sc |}.

Definition set_frame_end (v : pyval) (sc : scene) : scene :=
  {| render := render sc; frame_start := frame_start sc; frame_end := v |}.

(** [bpy.context.scene.render.<field> = params[key]] *)
Definition assign_render (params : gmap string pyval) (key : string)
    (set : pyval -> render_settings -> render_settings) : host scene unit :=
  v ← lift (py_param params key);
  modify (set_render (set v)).

(** "Set the render options" *)
Definition set_render_options (params : gmap string pyval)
  : host scene unit :=
  assign_render params "output_path" set_filepath;;
  assign_render params "fps" set_fps;;
  match params !! "fps_base" with
  | Some _ => assign_render params "fps_base" set_fps_base
  | None => mret tt
  end;;
  assign_render params "file_format" set_file_format;;
  assign_render params "color_mode" set_color_mode;;
  assign_render params "alpha_mode" set_film_transparent;;
  assign_render params "resolution_x" set_resolution_x;;
  assign_render params "resolution_y" set_resolution_y;;
  assign_render params "resolution_percentage" set_resolution_percentage.

(** "Animation Speed" and "Set render length/position" *)
Definition set_animation_length (params : gmap string pyval)
  : host scene unit :=
  multiplier ← lift (py_param params "length_multiplier");
  length_multiplier ← lift (py_round multiplier);
  end_frame ← lift (py_param params "end_frame");
  new_length ← lift (py_mul end_frame (PInt length_multiplier));
  modify (set_render (set_frame_map_old (PInt 1)));;
  modify (set_render (set_frame_map_new (PInt length_multiplier)));;
  start_frame ← lift (py_param params "start_frame");
  modify (set_frame_start start_frame);;
  modify (set_frame_end new_length).

(** The script from the merge of the parameters on, as far as it writes
    the scene. *)
Definition render_script (params_json : option (gmap string pyval))
  : host scene unit :=
  let params := merge_params default_params params_json in
  set_render_options params;;
  set_animation_length params.

(** The product the specification speaks of: [end_frame] times the
    [length_multiplier] parameter itself. *)
Definition spec_new_length (end_frame multiplier : pyval) : pyres pyval :=
  py_mul end_frame multiplier.

(** What the specification says of the animation length: the value
    written to [frame_end] equals the product of the two parameters. *)
Definition length_is_product (params : gmap string pyval) (sc : scene)
  : Prop :=
  forall e m : pyval,
    params !! "end_frame" = Some e ->
    params !! "length_multiplier" = Some m ->
    exists v, spec_new_length e m = Ok v
              /\ num_eqb (frame_end (set_animation_length params sc).1) v
                 = true.

(** ** What an update may change *)

(** A curve after the update of [n] keyframes: its identity and the
    number of its keyframe points are as before, the points from
    position [n] on are as before, and a curve whose array index is not
    a color channel is as before altogether. *)
Definition curve_kept (n : nat) (fc fc' : fcurve) : Prop :=
  data_path fc' = data_path fc
  /\ array_index fc' = array_index fc
  /\ length (keyframe_points fc') = length (keyframe_points fc)
  /\ (forall p, (n <= p)%nat ->
                keyframe_points fc' !! p = keyframe_points fc !! p)
  /\ (~ (0 <= array_index fc < 3) -> fc' = fc).

(** The store after the update: no curve is added or removed, every curve
    is kept in the sense above, and a curve outside [touched] is as
    before. *)
Definition store_kept (n : nat) (touched : fref -> Prop)
    (h h' : gmap fref fcurve) : Prop :=
  forall r,
    match h !! r with
    | Some fc =>
        exists fc', h' !! r = Some fc' /\ curve_kept n fc fc'
                    /\ (~ touched r -> fc' = fc)
    | None => h' !! r = None
    end.

(** ** Sample data *)

Definition blank_render : render_settings :=
  {| filepath := PStr ""; fps := PInt 24; fps_base := PFloat 1.0;
     file_format := PStr "PNG"; color_mode := PStr "RGB";
     film_transparent := PBool false; resolution_x := PInt 1920;
     resolution_y := PInt 1080; resolution_percentage := PInt 100;
     frame_map_old := PInt 100; frame_map_new := PInt 100 |}.

Definition blank_scene : scene :=
  {| render := blank_render; frame_start := PInt 1; frame_end := PInt 250 |}.

(** The frame parameters of the injected object of [lens_flare.py], with
    the given multiplier. *)
Definition frame_params (multiplier : pyval) : gmap string pyval :=
  {[ "start_frame" := PInt 1; "end_frame" := PInt 250;
     "length_multiplier" := multiplier ]}.

Definition sample_point (frame value : Z) : keyframe_point :=
  {| co := (PInt frame, PInt value);
     handle_left := {| vx := PInt (frame - 1); vy := PInt value |};
     handle_right := {| vx := PInt (frame + 1); vy := PInt value |} |}.

(** Four curves of a color property, red with two keyframe points, green
    with one, blue with two and alpha with two, and a curve of another
    property that shares the array index 0. *)
Definition sample_curves : gmap fref fcurve :=
  list_to_map [
    (10%nat, {| data_path := "color"; array_index := 0;
                keyframe_points := [sample_point 1 0; sample_point 50 0] |});
    (11%nat, {| data_path := "color"; array_index := 1;
                keyframe_points := [sample_point 1 0] |});
    (12%nat, {| data_path := "color"; array_index := 2;
                keyframe_points := [sample_point 1 0; sample_point 50 0] |});
    (13%nat, {| data_path := "color"; array_index := 3;
                keyframe_points := [sample_point 1 1; sample_point 50 1] |});
    (20%nat, {| data_path := "location"; array_index := 0;
                keyframe_points := [sample_point 1 7] |})
  ].

(** An action of the older layout, one of the layered layout whose
    second channelbag has the curves, and one without any curves. *)
Definition legacy_action : action :=
  {| act_fcurves := Some [20; 10; 11; 12; 13]%nat; act_layers := None |}.

Definition layered_action : action :=
  {| act_fcurves := None;
     act_layers := Some [
       {| layer_strips := None |};
       {| layer_strips := Some [
            {| strip_channelbags := Some [
                 {| bag_fcurves := None |};
                 {| bag_fcurves := Some [10; 11; 12]%nat |};
                 {| bag_fcurves := Some [20]%nat |} ] |} ] |} ] |}.

Definition bare_action : action :=
  {| act_fcurves := None;
     act_layers := Some [
       {| layer_strips := Some [
            {| strip_channelbags := Some [ {| bag_fcurves := None |} ] |};
            {| strip_channelbags := None |} ] |} ] |}.

(** The numeric and render entries of the object injected into
    [lens_flare.py]. *)
Definition lens_flare_injected : gmap string pyval :=
  list_to_map [
    ("file_name", PStr "TitleFileName");
    ("start_frame", PInt 1);
    ("end_frame", PInt 250);
    ("length_multiplier", PFloat 1.0);
    ("start_x", PFloat 3.8); ("start_y", PFloat 4.13); ("start_z", PFloat 2.65);
    ("end_x", PFloat (-4.6)); ("end_y", PFloat 4.13); ("end_z", PFloat 3.21);
    ("alpha", PFloat 1.0);
    ("diffuse_color", PList [PFloat 1.0; PFloat 1.0; PFloat 1.0; PFloat 1.0]);
    ("strength", PFloat 0.75);
    ("fps", PInt 30);
    ("resolution_x", PInt 1280);
    ("resolution_y", PInt 720);
    ("resolution_percentage", PInt 50);
    ("quality", PInt 100);
    ("file_format", PStr "PNG");
    ("color_mode", PStr "RGBA");
    ("alpha_mode", PInt 1);
    ("horizon_color", PList [PFloat 0.57; PFloat 0.57; PFloat 0.57]);
    ("animation", PBool true);
    ("output_path", PStr "TitleFileName")
  ].

Definition sample_socket (name type : string) (v : pyval) : socket :=
  {| sock_name := name; sock_type := type; default_value := v;
     sock_keys := [] |}.

(** A material whose principled node has its first four sockets. *)
Definition sample_material : material :=
  {| diffuse_color := PList [PFloat 0.8; PFloat 0.8; PFloat 0.8; PFloat 1.0];
     specular_color := PList [PFloat 1.0; PFloat 1.0; PFloat 1.0];
     mat_node_tree := Some {| nodes := {[ principled := {| inputs := [
       sample_socket "Base Color" "RGBA"
         (PList [PFloat 0.8; PFloat 0.8; PFloat 0.8; PFloat 1.0]);
       sample_socket "Metallic" "VALUE" (PFloat 0.0);
       sample_socket "Roughness" "VALUE" (PFloat 0.5);
       sample_socket "IOR" "VALUE" (PFloat 1.5) ] |} ]} |} |}.

Definition sample_data : bpy_data :=
  {| actions := {[ "ColorAction" := legacy_action;
                   "LayeredAction" := layered_action;
                   "BareAction" := bare_action ]};
     fcurves := sample_curves;
     materials := {[ "Material.001" := sample_material ]} |}.

(** ** Further code of the scripts *)

(** The exception [ensure_rgba] raises on a value it cannot complete:
    the failing subscript of a short sequence, the missing key [0] of a
    dict, or the missing length of anything else. *)
Definition rgba_exception (v : pyval) : pyexn :=
  match v with
  | PList _ | PStr _ => IndexError
  | PDict _ => KeyError
  | _ => TypeError
  end.

(** The keys [keyframe_color_socket] inserts for one keyframe: one for
    each of the four components, at the frame of the keyframe, on the
    color with its alpha. *)
Definition color_keys (kf : pyval * pyval) : list inserted_key :=
  match ensure_rgba kf.2 with
  | Ok rgba =>
      (fun idx => {| key_index := Some idx; key_frame := kf.1;
                     key_value := rgba |}) <$> seq 0 4
  | Raise _ => []
  end.

(** The key [keyframe_value_socket] inserts at one frame. *)
Definition value_key (value frame : pyval) : inserted_key :=
  {| key_index := None; key_frame := frame; key_value := value |}.

(** ** What socket keyframing may change *)

(** A socket after keyframing: same name and type, and the keys it had
    are still there, in front of the new ones. *)
Definition socket_grown (sk sk' : socket) : Prop :=
  sock_name sk' = sock_name sk /\ sock_type sk' = sock_type sk
  /\ sock_keys sk `prefix_of` sock_keys sk'.

Definition node_grown (nd nd' : node) : Prop :=
  Forall2 socket_grown (inputs nd) (inputs nd').

(** A node tree: the same nodes by name, only the principled node may
    differ, and only by grown sockets. *)
Definition tree_grown (nt nt' : node_tree) : Prop :=
  forall key,
    match nodes nt !! key, nodes nt' !! key with
    | Some nd, Some nd' => node_grown nd nd' /\ (key ≠ principled -> nd' = nd)
    | None, None => True
    | _, _ => False
    end.

Definition material_grown (m m' : material) : Prop :=
  match mat_node_tree m, mat_node_tree m' with
  | Some nt, Some nt' => tree_grown nt nt'
  | None, None => True
  | _, _ => False
  end.

(** The host data after work on the material [name]: actions and curves
    as before, the same materials by name, and only [name] may differ. *)
Definition data_grown (name : string) (st st' : bpy_data) : Prop :=
  actions st' = actions st /\ fcurves st' = fcurves st
  /\ forall key,
       match materials st !! key, materials st' !! key with
       | Some m, Some m' => material_grown m m' /\ (key ≠ name -> m' = m)
       | None, None => True
       | _, _ => False
       end.

(** Host code all of whose runs relate the state before to the state
    after by [R], whatever the outcome. *)
Definition extends {S A : Type} (R : S -> S -> Prop) (m : host S A) : Prop :=
  forall s, R s (m s).1.

(** Host code that keeps a property of the state, whatever the outcome. *)
Definition keeps {S A : Type} (I : S -> Prop) (m : host S A) : Prop :=
  forall s, I s -> I (m s).1.

(** Host code whose results, when it returns, satisfy [P]. *)
Definition returns {S A : Type} (P : A -> Prop) (m : host S A) : Prop :=
  forall s a, (m s).2 = Ok a -> P a.

(** ** What an update writes *)

(** The keyframe point at position [p] of the curve [r] is [x]. *)
Definition point_is (r : fref) (p : nat) (x : keyframe_point)
    (h : gmap fref fcurve) : Prop :=
  exists fc, h !! r = Some fc /\ keyframe_points fc !! p = Some x.

(** A keyframe color that has its three channels: a list or a string of
    at least three components. *)
Definition has_rgb (color : pyval) : bool :=
  is_sequence color && negb (rgba_raises color).

(** ** The keyframes of the sphere ([lens_flare.py]) *)

(** [_set_kp]: the write of one keyframe point, skipped when there is no
    curve or the curve has no point at [idx]. *)
Definition _set_kp (fc : option fref) (idx : nat) (frame value : pyval)
  : host (gmap fref fcurve) unit :=
  match fc with
  | None => mret tt
  | Some r =>
      c ← deref r;
      if (idx <? length (keyframe_points c))%nat
      then modify (alter (set_keyframe idx frame value) r)
      else mret tt
  end.

(** [by_index.get(i) if by_index else (fcurves[i] if len(fcurves) > i
    else None)] *)
Definition pick_curve (by_index : gmap Z fref) (curves : list fref)
    (i : nat) : option fref :=
  if decide (by_index = ∅) then curves !! i else by_index !! Z.of_nat i.

(** [_set_kp(fc, idx, frame, params[key])]: the parameter is read before
    the call. *)
Definition set_kp_param (params : gmap string pyval) (fc : option fref)
    (idx : nat) (frame : pyval) (key : string) : host bpy_data unit :=
  value ← lift (py_param params key);
  zoom (fun st => Some (fcurves st)) set_fcurves (_set_kp fc idx frame value).

(** "Modify the Start and End keyframes": a failed lookup of the curves
    falls back on the [fcurves] attribute, or on no curves at all. *)
Definition set_sphere_keyframes (params : gmap string pyval)
  : host bpy_data unit :=
  st ← get_state;
  match actions st !! "SphereAction" with
  | None => mret tt
  | Some a =>
      let curves :=
        match get_action_fcurves a with
        | Ok c => c
        | Raise _ => default [] (act_fcurves a)
        end in
      by_index ← lift (index_curves (fcurves st) curves ∅);
      let fc_x := pick_curve by_index curves 0 in
      let fc_y := pick_curve by_index curves 1 in
      let fc_z := pick_curve by_index curves 2 in
      set_kp_param params fc_x 0 (PFloat 1.0) "start_x";;
      set_kp_param params fc_y 0 (PFloat 1.0) "start_y";;
      set_kp_param params fc_z 0 (PFloat 1.0) "start_z";;
      set_kp_param params fc_x 1 (PFloat 300.0) "end_x";;
      set_kp_param params fc_y 1 (PFloat 300.0) "end_y";;
      set_kp_param params fc_z 1 (PFloat 300.0) "end_z"
  end.

(** Host code that, started in a state with [P], returns, with [Q] of
    its result and the state after. *)
Definition triple {S A : Type} (P : S -> Prop) (m : host S A)
    (Q : A -> S -> Prop) : Prop :=
  forall s, P s -> exists a, (m s).2 = Ok a /\ Q a (m s).1.

(** An action named "SphereAction" with the three location curves. *)
Definition sphere_data : bpy_data :=
  {| actions := {[ "SphereAction" :=
       {| act_fcurves := Some [10; 11; 12]%nat; act_layers := None |} ]};
     fcurves := sample_curves;
     materials := ∅ |}.

(** The parameter that holds the start or end position on axis [i]. *)
Definition axis_key (prefix : string) (i : nat) : string :=
  String.append prefix
    match i with
    | O => "x"
    | S O => "y"
    | _ => "z"
    end.

(** The state of the host during the work on the curves of [st0]: its
    actions and materials are those of [st0], and its curve store is kept
    in the sense of [store_kept]. *)
Definition curves_kept (n : nat) (touched : fref -> Prop)
    (st0 st : bpy_data) : Prop :=
  actions st = actions st0 /\ materials st = materials st0
  /\ store_kept n touched (fcurves st0) (fcurves st).

(** The keys the render options read without a guard, in the order the
    script reads them. *)
Definition render_keys : list string :=
  ["output_path"; "fps"; "file_format"; "color_mode"; "alpha_mode";
   "resolution_x"; "resolution_y"; "resolution_percentage"].

(** ** Fonts ([spacemovie_intro.py], [neon_curves.py]) *)

(** A font datablock of [bpy.data.fonts]. *)
Record font : Type := { font_name : string; font_filepath : pyval }.

(** [bpy.data.fonts[name]]: the first font of that name. *)
Definition font_by_name (fonts : list font) (name : string) : pyres font :=
  match list_find (fun f => font_name f = name) fonts with
  | Some (_, f) => Ok f
  | None => Raise KeyError
  end.

(** The loop of [load_font] over the names found after the load: the
    first name that was not there before ends it. *)
Fixpoint first_new_font (original_fonts names : list string)
    (fonts : list font) : pyres (option font) :=
  match names with
  | [] => Ok None
  | name :: rest =>
      if bool_decide (name ∈ original_fonts)
      then first_new_font original_fonts rest fonts
      else f ← font_by_name fonts name; Ok (Some f)
  end.

Section FontOperator.

(** [bpy.ops.font.open(filepath=...)] is an operator of the host; the
    development is parametric in what it does to the fonts and in
    whether it raises. *)
Variable font_open : pyval -> host (list font) unit.

Definition load_font (font_path : pyval) : host (list font) (option font) :=
  original_fonts ← (fun fonts => (fonts, Ok (font_name <$> fonts)));
  font_open font_path;;
  fonts ← get_state;
  lift (first_new_font original_fonts (font_name <$> fonts) fonts).

End FontOperator.

(** An operator that appends a font named after the path, and one that
    finds the file already loaded and adds nothing. *)
Definition open_appends (path : pyval) : host (list font) unit :=
  modify (fun fonts =>
    fonts ++ [{| font_name := match path with PStr s => s | _ => "Font" end;
                 font_filepath := path |}]).

Definition open_reuses (path : pyval) : host (list font) unit := mret tt.

Definition bfont : font := {| font_name := "Bfont"; font_filepath := PStr "<builtin>" |}.

(** ** The texts of [spacemovie_intro.py] *)

(** The newline character of the string literals. *)
Definition nl : string := String (Ascii.ascii_of_nat 10) EmptyString.

(** The hardcoded defaults of [spacemovie_intro.py]. *)
Definition spacemovie_default_params : gmap string pyval :=
  list_to_map [
    ("title", PStr "Oh Yeah! OpenShot!");
    ("Alongtimeago", PStr ("Some cycles ago, in The Grid"
       +:+ nl
       +:+ "far, far inside...."));
    ("Episode", PStr "Episode I.V");
    ("EpisodeTitle", PStr "A NEW OPENSHOT");
    ("TitleSpaceMovie", PStr ("Space"
       +:+ nl
       +:+ "Movie"));
    ("MainText", PStr ("It is a period of software war. Free software developers "
       +:+ "have won some battles with free, and open-source "
       +:+ "applications. They leave the source code available for "
       +:+ "everybody in the Galaxy, allowing people to access software "
       +:+ "knowledge and truth."
       +:+ nl
       +:+ nl
       +:+ "But the EULA Galactic Empire is not dead and prepares its "
       +:+ "revenge with an ultimate weapon: the blue screen of DEATH. "
       +:+ "This armored system can anihilate an entire device by a "
       +:+ "simple segfault."
       +:+ nl
       +:+ nl
       +:+ "But the rebel hackers have a secret weapon too: an atomic "
       +:+ "penguin which protects them from almost all digital "
       +:+ "injuries..."));
    ("extrude", PFloat 0.1);
    ("bevel_depth", PFloat 0.02);
    ("spacemode", PStr "CENTER");
    ("text_size", PFloat 1.5);
    ("width", PFloat 1.0);
    ("fontname", PStr "Bfont");
    ("color", PList [PFloat 0.8; PFloat 0.8; PFloat 0.8]);
    ("alpha", PFloat 1.0);
    ("output_path", PStr "/tmp/");
    ("fps", PInt 24);
    ("quality", PInt 90);
    ("file_format", PStr "PNG");
    ("color_mode", PStr "RGBA");
    ("horizon_color", PList [PFloat 0.0; PFloat 0.0; PFloat 0.0]);
    ("resolution_x", PInt 1920);
    ("resolution_y", PInt 1080);
    ("resolution_percentage", PInt 100);
    ("start_frame", PInt 1);
    ("end_frame", PInt 2232);
    ("animation", PBool true)
  ].

(** The text objects the script writes, in its order. *)
Definition text_names : list string :=
  ["Alongtimeago"; "Episode"; "EpisodeTitle"; "TitleSpaceMovie"; "MainText"].

(** [bpy.data.objects[name].data.body = params[name]]: the parameter is
    read first, then the object is looked up.  The state is the body of
    the text of each object, by object name. *)
Definition set_body (params : gmap string pyval) (name : string)
  : host (gmap string pyval) unit :=
  value ← lift (py_param params name);
  objects ← get_state;
  match objects !! name with
  | Some _ => modify (<[name := value]>)
  | None => lift (Raise KeyError)
  end.

(** "Modify Text / Curve settings" *)
Definition set_text_bodies (params : gmap string pyval)
  : host (gmap string pyval) unit :=
  set_body params "Alongtimeago";;
  set_body params "Episode";;
  set_body params "EpisodeTitle";;
  set_body params "TitleSpaceMovie";;
  set_body params "MainText".

(** Text objects of a scene of [spacemovie_intro.py], and a camera. *)
Definition sample_objects : gmap string pyval :=
  list_to_map [
    ("Alongtimeago", PStr "a"); ("Episode", PStr "b");
    ("EpisodeTitle", PStr "c"); ("TitleSpaceMovie", PStr "d");
    ("MainText", PStr "e"); ("Camera", PNone)
  ].

(** ** The material of the flare ([lens_flare.py]) *)

Section MaterialBlock.

Variable str_to_float : string -> option float.

(** "Change the material settings".  The value on the right of an
    assignment is computed before its target is looked up.  The 4-tuple
    of the strength is the list of its components. *)
Definition set_material_settings (params : gmap string pyval)
  : host bpy_data unit :=
  st ← get_state;
  match materials st !! "Material.001" with
  | None => mret tt
  | Some material_object =>
      match _get_principled_node material_object with
      | None => mret tt
      | Some bsdf =>
          let ins := inputs bsdf in
          color ← lift (py_param params "diffuse_color");
          rgba ← lift (_safe_rgba str_to_float color);
          match socket_at 0 ins with
          | Some i =>
              on_socket "Material.001" i (modify (set_default_value rgba))
          | None => lift (Raise IndexError)
          end;;
          match socket_at 26 ins with
          | Some i =>
              color ← lift (py_param params "diffuse_color");
              rgba ← lift (_safe_rgba str_to_float color);
              on_socket "Material.001" i (modify (set_default_value rgba))
          | None => mret tt
          end;;
          strength_value ← lift (py_param params "strength");
          match socket_at 27 ins with
          | Some i =>
              on_socket "Material.001" i
                (modify (set_default_value
                   (PList [strength_value; strength_value; strength_value;
                           PFloat 1.0])))
          | None => mret tt
          end;;
          match find_socket (fun sk => String.eqb (sock_name sk) "Alpha") ins
          with
          | Some i =>
              alpha ← lift (py_param params "alpha");
              on_socket "Material.001" i (modify (set_default_value alpha))
          | None => mret tt
          end
      end
  end.

End MaterialBlock.

(** The principled node of the material [name] is there, with [n] input
    sockets. *)
Definition principled_inputs (name : string) (n : nat) (st : bpy_data)
  : Prop :=
  exists mat bsdf,
    materials st !! name = Some mat
    /\ _get_principled_node mat = Some bsdf
    /\ length (inputs bsdf) = n.

(** * Properties *)

(** C1: a 3-component color [r, g, b] becomes [r, g, b, 1.0], and an
    input of 4 or more components is returned unchanged. *)
Theorem ensure_rgba_three_and_four :
  (forall r g b : pyval,
      ensure_rgba (PList [r; g; b]) = Ok (PList [r; g; b; PFloat 1%float]))
  /\ (forall (color : pyval) (n : nat),
      py_len color = Ok n -> (4 <= n)%nat -> ensure_rgba color = Ok color).
Proof.
  split.
  - intros r g b. reflexivity.
  - intros color n Hlen Hn. apply Nat.leb_le in Hn.
    unfold ensure_rgba, mbind, pyres_bind. rewrite Hlen. cbv beta iota.
    rewrite Hn. reflexivity.
Qed.

Lemma ensure_rgba_three_and_four_witness :
  ensure_rgba (PList [PInt 1; PInt 2; PInt 3; PInt 4; PInt 5])
  = Ok (PList [PInt 1; PInt 2; PInt 3; PInt 4; PInt 5]).
Proof.
  apply (proj2 ensure_rgba_three_and_four) with (n := 5%nat);
    [reflexivity | lia].
Defined.

Example round_ties_to_even :
  py_round (PFloat 0.5) = Ok 0 /\ py_round (PFloat 1.5) = Ok 2
  /\ py_round (PFloat 2.5) = Ok 2 /\ py_round (PFloat (-1.5)) = Ok (-2)
  /\ py_round (PFloat 1.0) = Ok 1
  /\ float_of_int 3 = Ok 3%float /\ float_of_int (2^1024 - 1) = Raise OverflowError
  /\ float_of_int (2^53+1) = Ok 9007199254740992%float.
Proof. vm_compute. repeat split. Qed.

(** ** Shape of [ensure_rgba] results *)

Lemma string_get_lt (s : string) (i : nat) :
  (i < String.length s)%nat -> exists c, String.get i s = Some c.
Proof.
  revert i. induction s as [|a s IH]; intros i Hi; simpl in *; [lia|].
  destruct i as [|i]; [eauto|]. apply IH. lia.
Qed.

Lemma ensure_rgba_long (c : pyval) (n : nat) :
  py_len c = Ok n -> (4 <= n)%nat -> ensure_rgba c = Ok c.
Proof.
  intros Hlen Hn. apply Nat.leb_le in Hn.
  unfold ensure_rgba, mbind, pyres_bind. rewrite Hlen. cbv beta iota.
  rewrite Hn. reflexivity.
Qed.

Lemma ensure_rgba_seq3 (c : pyval) :
  is_sequence c = true -> py_len c = Ok 3%nat ->
  exists r g b, ensure_rgba c = Ok (PList [r; g; b; PFloat one]).
Proof.
  destruct c as [| | | |s|l|]; try discriminate; intros _ Hlen;
    simpl in Hlen; injection Hlen as Hlen.
  - destruct (string_get_lt s 0) as [c0 H0]; [lia|].
    destruct (string_get_lt s 1) as [c1 H1]; [lia|].
    destruct (string_get_lt s 2) as [c2 H2]; [lia|].
    unfold ensure_rgba, py_len, py_getitem, mbind, pyres_bind.
    rewrite Hlen, H0, H1, H2. simpl. eauto.
  - destruct l as [|r [|g [|b [|]]]]; try discriminate. simpl. eauto.
Qed.

Lemma ensure_rgba_ok (c : pyval) :
  rgba_raises c = false ->
  exists r n, ensure_rgba c = Ok r /\ py_len r = Ok n /\ (4 <= n)%nat
              /\ ensure_rgba r = Ok r.
Proof.
  intros Hc.
  assert (exists n, py_len c = Ok n /\
            ((4 <= n)%nat \/ (n = 3%nat /\ is_sequence c = true)))
    as (n & Hlen & Hn).
  { destruct c; try discriminate; simpl in *; eexists; (split; [reflexivity|]);
      apply Nat.ltb_ge in Hc; lia. }
  destruct Hn as [Hn | [-> Hseq]].
  - exists c, n. pose proof (ensure_rgba_long c n Hlen Hn). auto.
  - destruct (ensure_rgba_seq3 c Hseq Hlen) as (r & g & b & Hr).
    exists (PList [r; g; b; PFloat one]), 4%nat. rewrite Hr.
    repeat split; auto.
Qed.

Lemma ensure_rgba_raises (c : pyval) :
  rgba_raises c = true -> exists e, ensure_rgba c = Raise e.
Proof.
  intros Hc. destruct c as [| | | |s|l|d]; simpl in *; eauto.
  - unfold ensure_rgba, py_len, py_getitem, mbind, pyres_bind.
    destruct s as [|a [|b [|c s]]]; simpl in *; eauto; discriminate.
  - destruct l as [|a [|b [|c l]]]; simpl in *; eauto; discriminate.
  - unfold ensure_rgba, py_len, py_getitem, mbind, pyres_bind.
    apply Nat.ltb_lt in Hc.
    destruct (4 <=? length d)%nat eqn:E; [apply Nat.leb_le in E; lia|]. eauto.
Qed.

(** C9: on a color sequence of at least 3 components [ensure_rgba]
    succeeds, applying it again changes nothing, and the result has at
    least 4 components. *)
Theorem ensure_rgba_idempotent (c : pyval) (n : nat) :
  is_sequence c = true -> py_len c = Ok n -> (3 <= n)%nat ->
  exists r m,
    ensure_rgba c = Ok r /\ (ensure_rgba c ≫= ensure_rgba) = ensure_rgba c
    /\ py_len r = Ok m /\ (4 <= m)%nat.
Proof.
  intros Hseq Hlen Hn.
  destruct (ensure_rgba_ok c) as (r & m & Hr & Hm & Hm4 & Hrr).
  - destruct c; try discriminate; simpl in *; injection Hlen as ->;
      apply Nat.ltb_ge; lia.
  - exists r, m. rewrite Hr. repeat split; auto.
Qed.

Lemma ensure_rgba_idempotent_witness :
  exists r m,
    ensure_rgba (PList [PFloat 0.5; PFloat 0.25; PInt 1]) = Ok r
    /\ (ensure_rgba (PList [PFloat 0.5; PFloat 0.25; PInt 1]) ≫= ensure_rgba)
       = ensure_rgba (PList [PFloat 0.5; PFloat 0.25; PInt 1])
    /\ py_len r = Ok m /\ (4 <= m)%nat.
Proof.
  apply (ensure_rgba_idempotent (PList [PFloat 0.5; PFloat 0.25; PInt 1]) 3);
    [reflexivity | reflexivity | lia].
Defined.

(** C8 as stated fails: a list of five components is returned as it is,
    so the result is not a 4-component list. *)
Lemma safe_rgba_five_components :
  ~ (forall (parse : string -> option float) (value : pyval),
        exists r, _safe_rgba parse value = Ok r /\ four_components r).
Proof.
  intros H.
  destruct (H (fun _ => None)
              (PList [PInt 1; PInt 2; PInt 3; PInt 4; PInt 5]))
    as (r & Hr & a & b & c & d & Hshape).
  vm_compute in Hr. congruence.
Qed.

(** C8, amended: [_safe_rgba] never raises.  A value of length 4 or more
    is returned as it is and a sequence of exactly 3 components gets the
    alpha 1.0 appended, in both cases the [ensure_rgba] result; on every
    other value the result is [v, v, v, 1.0] when [float] converts the
    value to [v], and [1.0, 1.0, 1.0, 1.0] when it does not. *)
Theorem safe_rgba_total (parse : string -> option float) (value : pyval) :
  (exists r, _safe_rgba parse value = Ok r)
  /\ (rgba_raises value = false ->
      _safe_rgba parse value = ensure_rgba value
      /\ (forall n, py_len value = Ok n -> (4 <= n)%nat ->
          _safe_rgba parse value = Ok value)
      /\ (is_sequence value = true -> py_len value = Ok 3%nat ->
          exists r g b,
            _safe_rgba parse value = Ok (PList [r; g; b; PFloat 1%float])))
  /\ (rgba_raises value = true ->
      (forall v, py_float parse value = Ok v ->
                 _safe_rgba parse value = Ok (gray v))
      /\ (forall e, py_float parse value = Raise e ->
                    _safe_rgba parse value = Ok white)).
Proof.
  assert (Hok : rgba_raises value = false ->
                _safe_rgba parse value = ensure_rgba value).
  { intros Hc. destruct (ensure_rgba_ok value Hc) as (r & m & Hr & _).
    unfold _safe_rgba. rewrite Hr. reflexivity. }
  assert (Hraise : rgba_raises value = true ->
            _safe_rgba parse value =
            try_except (v ← py_float parse value; Ok (gray v)) (Ok white)).
  { intros Hc. destruct (ensure_rgba_raises value Hc) as (e & He).
    unfold _safe_rgba. rewrite He. reflexivity. }
  split; [|split].
  - destruct (rgba_raises value) eqn:Hc.
    + rewrite Hraise by reflexivity.
      destruct (py_float parse value); simpl; eauto.
    + rewrite Hok by reflexivity.
      destruct (ensure_rgba_ok value Hc) as (r & m & Hr & _). eauto.
  - intros Hc. rewrite (Hok Hc). split; [reflexivity|split].
    + intros n Hlen Hn. eapply ensure_rgba_long; eauto.
    + intros Hseq Hlen. apply ensure_rgba_seq3; assumption.
  - intros Hc. rewrite (Hraise Hc). split.
    + intros v Hv. rewrite Hv. reflexivity.
    + intros e He. rewrite He. reflexivity.
Qed.

Lemma safe_rgba_total_witness :
  _safe_rgba (fun _ => None) (PFloat 0.75) = Ok (gray 0.75)
  /\ _safe_rgba (fun _ => None) (PList [PInt 1; PInt 2]) = Ok white
  /\ _safe_rgba (fun _ => None) (PList [PInt 1; PInt 2; PInt 3; PInt 4])
     = Ok (PList [PInt 1; PInt 2; PInt 3; PInt 4]).
Proof.
  split; [|split].
  - apply (proj2 (proj2 (safe_rgba_total (fun _ => None) (PFloat 0.75))));
      reflexivity.
  - apply (proj2 (proj2 (safe_rgba_total (fun _ => None)
                           (PList [PInt 1; PInt 2]))) eq_refl)
      with (e := TypeError).
    reflexivity.
  - apply (proj2 (proj1 (proj2 (safe_rgba_total (fun _ => None)
             (PList [PInt 1; PInt 2; PInt 3; PInt 4]))) eq_refl)) with (n := 4%nat);
      [reflexivity | simpl; lia].
Defined.

(** ** The parameter merge *)

Lemma dict_update_union (d other : gmap string pyval) :
  dict_update d other = other ∪ d.
Proof.
  unfold dict_update. rewrite <- (list_to_map_to_list other) at 2.
  induction (map_to_list other) as [|[k v] l IH]; simpl.
  - symmetry. apply (left_id_L ∅ (∪)).
  - rewrite IH. apply insert_union_l.
Qed.

Lemma dict_update_lookup (d other : gmap string pyval) (k : string) :
  dict_update d other !! k =
  match other !! k with
  | Some v => Some v
  | None => d !! k
  end.
Proof.
  rewrite dict_update_union, lookup_union.
  destruct (other !! k), (d !! k); reflexivity.
Qed.

(** C2: after the merge every injected key maps to its injected value and
    every default key that was not injected keeps its default value. *)
Theorem merge_overlays_defaults (defaults injected : gmap string pyval) :
  (forall k v, injected !! k = Some v ->
               merge_params defaults (Some injected) !! k = Some v)
  /\ (forall k, injected !! k = None ->
                merge_params defaults (Some injected) !! k = defaults !! k).
Proof.
  split; intros k; simpl; rewrite dict_update_lookup.
  - intros v ->. reflexivity.
  - intros ->. reflexivity.
Qed.

Lemma merge_overlays_defaults_witness :
  merge_params default_params (Some {[ "fps" := PInt 30 ]}) !! "fps"
  = Some (PInt 30)
  /\ merge_params default_params (Some {[ "fps" := PInt 30 ]}) !! "quality"
     = default_params !! "quality".
Proof.
  split.
  - apply (proj1 (merge_overlays_defaults default_params
                    {[ "fps" := PInt 30 ]})).
    reflexivity.
  - apply (proj2 (merge_overlays_defaults default_params
                    {[ "fps" := PInt 30 ]})).
    reflexivity.
Defined.

(** ** The render settings *)

Lemma assign_render_run (params : gmap string pyval) (key : string)
    (set : pyval -> render_settings -> render_settings) (sc : scene) :
  assign_render params key set sc =
  match params !! key with
  | Some v => (set_render (set v) sc, Ok tt)
  | None => (sc, Raise KeyError)
  end.
Proof.
  unfold assign_render, py_param, lift, modify, mbind, host_bind.
  destruct (params !! key); reflexivity.
Qed.

Lemma host_bind_run {S A B : Type} (m : host S A) (k : A -> host S B) (s : S) :
  (m ≫= k) s =
  match m s with
  | (s', Ok a) => k a s'
  | (s', Raise e) => (s', Raise e)
  end.
Proof. reflexivity. Qed.

Lemma host_ret_bind {S A B : Type} (a : A) (k : A -> host S B) (s : S) :
  (mret a ≫= k) s = k a s.
Proof. reflexivity. Qed.

Ltac run_assignments :=
  repeat first
    [ rewrite host_ret_bind
    | rewrite host_bind_run, assign_render_run;
      match goal with
      | |- context [?p !! ?k] => destruct (p !! k) eqn:?
      end; simpl; try reflexivity; try discriminate ].

Lemma fps_base_absent (params : gmap string pyval) (sc : scene) :
  params !! "fps_base" = None ->
  fps_base (render (set_render_options params sc).1) = fps_base (render sc).
Proof.
  intros Hbase. unfold set_render_options. rewrite Hbase.
  run_assignments.
  rewrite assign_render_run.
  destruct (params !! "resolution_percentage"); reflexivity.
Qed.

Lemma fps_base_present (params : gmap string pyval) (sc : scene) (v : pyval) :
  params !! "fps_base" = Some v ->
  (set_render_options params sc).2 = Ok tt ->
  fps_base (render (set_render_options params sc).1) = v.
Proof.
  intros Hbase. unfold set_render_options. rewrite Hbase.
  rewrite host_bind_run, assign_render_run.
  destruct (params !! "output_path"); simpl; [|discriminate].
  rewrite host_bind_run, assign_render_run.
  destruct (params !! "fps"); simpl; [|discriminate].
  rewrite host_bind_run, assign_render_run, Hbase.
  run_assignments.
  rewrite assign_render_run.
  destruct (params !! "resolution_percentage"); simpl;
    [reflexivity | discriminate].
Qed.

(** C7: for a key absent from the injected object the merged dictionary
    answers as the hardcoded defaults do, so the script reads the default
    value of the key; without injected parameters the defaults stand as
    they are; and [fps_base] is written only when the merged parameters
    have the key, the render field staying unchanged otherwise. *)
Theorem missing_keys_use_defaults (injected : gmap string pyval) (sc : scene) :
  let params := merge_params default_params (Some injected) in
  (forall k, injected !! k = None ->
             py_param params k = py_param default_params k)
  /\ (forall k v, injected !! k = None -> default_params !! k = Some v ->
                  py_param params k = Ok v)
  /\ merge_params default_params None = default_params
  /\ (params !! "fps_base" = None ->
      fps_base (render (set_render_options params sc).1)
      = fps_base (render sc))
  /\ (forall v, params !! "fps_base" = Some v ->
                (set_render_options params sc).2 = Ok tt ->
                fps_base (render (set_render_options params sc).1) = v).
Proof.
  intros params.
  assert (Hfall : forall k, injected !! k = None ->
                            params !! k = default_params !! k).
  { intros k Hk. unfold params. simpl. rewrite dict_update_lookup, Hk.
    reflexivity. }
  split; [|split; [|split; [reflexivity|split]]].
  - intros k Hk. unfold py_param. rewrite (Hfall k Hk). reflexivity.
  - intros k v Hk Hd. unfold py_param. rewrite (Hfall k Hk), Hd. reflexivity.
  - apply fps_base_absent.
  - intros v. apply fps_base_present.
Qed.

Lemma missing_keys_use_defaults_witness :
  py_param (merge_params default_params (Some (frame_params (PFloat 1.0))))
    "quality" = Ok (PInt 90)
  /\ fps_base (render (set_render_options
        (merge_params default_params (Some (frame_params (PFloat 1.0))))
        blank_scene).1) = PFloat 1.0.
Proof.
  pose proof (missing_keys_use_defaults (frame_params (PFloat 1.0))
                blank_scene) as (_ & Hdef & _ & Habsent & _).
  split.
  - apply (Hdef "quality" (PInt 90)); reflexivity.
  - apply Habsent. reflexivity.
Defined.

(** ** The animation length *)

(** C3 as stated fails: the multiplier is rounded to an integer first, so
    [end_frame = 250] with the multiplier [1.5] gives 500, not 375. *)
Lemma new_length_rounds_multiplier :
  ~ length_is_product (frame_params (PFloat 1.5)) blank_scene.
Proof.
  intros H.
  destruct (H (PInt 250) (PFloat 1.5) eq_refl eq_refl) as (v & Hv & Heq).
  vm_compute in Hv. injection Hv as <-.
  vm_compute in Heq. discriminate.
Qed.

Lemma set_animation_length_run (params : gmap string pyval) (sc : scene)
    (lm ef sf v : pyval) (k : Z) :
  params !! "length_multiplier" = Some lm -> py_round lm = Ok k ->
  params !! "end_frame" = Some ef -> py_mul ef (PInt k) = Ok v ->
  params !! "start_frame" = Some sf ->
  set_animation_length params sc =
  (set_frame_end v (set_frame_start sf
     (set_render (set_frame_map_new (PInt k))
        (set_render (set_frame_map_old (PInt 1)) sc))), Ok tt).
Proof.
  intros Hlm Hk Hef Hv Hsf.
  unfold set_animation_length, py_param, lift, modify, mbind, host_bind.
  rewrite Hlm, Hk, Hef, Hv, Hsf. reflexivity.
Qed.

(** C3, amended: the length written to [frame_end] is [end_frame] times
    the multiplier rounded to the nearest integer, ties to even; for
    integer frames it is the integer product, and [end_frame = 250] with
    the multiplier [1.0] gives 250. *)
Theorem new_length_rounded_product (params : gmap string pyval) (sc : scene)
    (lm ef sf v : pyval) (k : Z) :
  params !! "length_multiplier" = Some lm -> py_round lm = Ok k ->
  params !! "end_frame" = Some ef -> py_mul ef (PInt k) = Ok v ->
  params !! "start_frame" = Some sf ->
  (set_animation_length params sc).2 = Ok tt
  /\ frame_end (set_animation_length params sc).1 = v
  /\ frame_map_new (render (set_animation_length params sc).1) = PInt k
  /\ (forall e, ef = PInt e -> v = PInt (e * k))
  /\ (ef = PInt 250 -> lm = PFloat 1.0 -> v = PInt 250).
Proof.
  intros Hlm Hk Hef Hv Hsf.
  rewrite (set_animation_length_run params sc lm ef sf v k) by assumption.
  repeat split.
  - intros e ->. change (Ok (PInt (e * k)) = Ok v) in Hv. congruence.
  - intros -> ->. vm_compute in Hk. injection Hk as <-.
    vm_compute in Hv. congruence.
Qed.

Lemma new_length_rounded_product_witness :
  frame_end (set_animation_length (frame_params (PFloat 1.0)) blank_scene).1
  = PInt 250.
Proof.
  apply (new_length_rounded_product (frame_params (PFloat 1.0)) blank_scene
           (PFloat 1.0) (PInt 250) (PInt 1) (PInt 250) 1);
    reflexivity.
Defined.

(** ** Locating the F-curves of an action *)

Lemma first_curves_app (xs ys : list channelbag) :
  first_curves (xs ++ ys) =
  match first_curves xs with
  | Some c => Some c
  | None => first_curves ys
  end.
Proof.
  unfold first_curves. rewrite omap_app.
  destruct (omap bag_fcurves xs); reflexivity.
Qed.

Lemma scan_bags_first (bags : list channelbag) :
  scan_bags bags = first_curves bags.
Proof.
  induction bags as [|bag rest IH]; [reflexivity|].
  unfold first_curves in *. simpl. destruct (bag_fcurves bag); auto.
Qed.

Lemma scan_strips_first (strips : list strip) :
  scan_strips strips =
  first_curves (st ← strips; default [] (strip_channelbags st)).
Proof.
  induction strips as [|st rest IH]; [reflexivity|].
  simpl. rewrite first_curves_app, <- scan_bags_first, IH. reflexivity.
Qed.

Lemma scan_layers_first (layers : list layer) :
  scan_layers layers =
  first_curves (ly ← layers; st ← default [] (layer_strips ly);
                default [] (strip_channelbags st)).
Proof.
  induction layers as [|ly rest IH]; [reflexivity|].
  simpl. rewrite first_curves_app, <- scan_strips_first, IH. reflexivity.
Qed.

Lemma get_action_fcurves_layered (a : action) :
  act_fcurves a = None ->
  get_action_fcurves a =
  match first_curves (all_bags a) with
  | Some c => Ok c
  | None => Raise AttributeError
  end.
Proof.
  intros Hnone. unfold get_action_fcurves, all_bags.
  rewrite Hnone, scan_layers_first. reflexivity.
Qed.

(** The first collection found: the bags before it have none. *)
Lemma first_curves_some (bags : list channelbag) (c : list fref) :
  first_curves bags = Some c <->
  exists before bag after,
    bags = before ++ bag :: after /\ bag_fcurves bag = Some c
    /\ Forall (fun b => bag_fcurves b = None) before.
Proof.
  induction bags as [|b rest IH].
  - split; [discriminate|]. intros (before & bag & after & Heq & _).
    destruct before; discriminate.
  - change (b :: rest) with ([b] ++ rest) at 1. rewrite first_curves_app.
    unfold first_curves at 1. simpl.
    destruct (bag_fcurves b) as [cb|] eqn:Hb; simpl.
    + split.
      * intros [= ->]. exists [], b, rest. auto.
      * intros (before & bag & after & Heq & Hbag & Hall).
        destruct before as [|b' before]; simpl in Heq; injection Heq as -> ->.
        -- congruence.
        -- inversion Hall; congruence.
    + rewrite IH. split.
      * intros (before & bag & after & -> & Hbag & Hall).
        exists (b :: before), bag, after. auto.
      * intros (before & bag & after & Heq & Hbag & Hall).
        destruct before as [|b' before]; simpl in Heq; injection Heq as -> ->.
        -- congruence.
        -- inversion Hall; subst. eauto 6.
Qed.

Lemma first_curves_none (bags : list channelbag) :
  first_curves bags = None <-> Forall (fun b => bag_fcurves b = None) bags.
Proof.
  induction bags as [|b rest IH].
  - split; auto.
  - change (b :: rest) with ([b] ++ rest) at 1. rewrite first_curves_app.
    unfold first_curves at 1. simpl.
    destruct (bag_fcurves b) eqn:Hb; simpl.
    + split; [discriminate|]. inversion 1; congruence.
    + rewrite IH. split; [auto|]. inversion 1; auto.
Qed.

(** C4: when the action has no [fcurves] attribute and no channelbag of
    its layers and strips has an [fcurves] collection, the lookup raises
    [AttributeError]; it raises in no other case. *)
Theorem lookup_failure_raises (a : action) :
  (act_fcurves a = None ->
   (forall bag, bag ∈ all_bags a -> bag_fcurves bag = None) ->
   get_action_fcurves a = Raise AttributeError)
  /\ (forall e, get_action_fcurves a = Raise e ->
      e = AttributeError /\ act_fcurves a = None
      /\ forall bag, bag ∈ all_bags a -> bag_fcurves bag = None).
Proof.
  split.
  - intros Hnone Hbags. rewrite get_action_fcurves_layered by assumption.
    apply Forall_forall, first_curves_none in Hbags. rewrite Hbags.
    reflexivity.
  - intros e He. destruct (act_fcurves a) eqn:Hattr.
    + unfold get_action_fcurves in He. rewrite Hattr in He. discriminate.
    + rewrite get_action_fcurves_layered in He by assumption.
      destruct (first_curves (all_bags a)) eqn:Hfirst; [discriminate|].
      injection He as <-. repeat split.
      apply Forall_forall, first_curves_none. assumption.
Qed.

Lemma lookup_failure_raises_witness :
  get_action_fcurves bare_action = Raise AttributeError.
Proof.
  apply (proj1 (lookup_failure_raises bare_action)); [reflexivity|].
  apply Forall_forall. vm_compute. repeat constructor.
Defined.

(** ** The index by [array_index] *)

Lemma index_curves_sound (h : gmap fref fcurve) (curves : list fref)
    (acc idx : gmap Z fref) :
  index_curves h curves acc = Ok idx ->
  forall i r, idx !! i = Some r ->
    acc !! i = Some r
    \/ (r ∈ curves /\ exists fc, h !! r = Some fc /\ array_index fc = i).
Proof.
  revert acc. induction curves as [|r0 rest IH]; intros acc Hidx i r Hi.
  - injection Hidx as <-. auto.
  - simpl in Hidx. destruct (h !! r0) as [fc0|] eqn:H0; [|discriminate].
    destruct (IH _ Hidx i r Hi) as [Hacc | (Hin & fc & Hfc & Harr)].
    + destruct (decide (array_index fc0 = i)) as [<-|Hne].
      * rewrite lookup_insert_eq in Hacc. injection Hacc as <-.
        right. split; [left|]. eauto.
      * rewrite lookup_insert_ne in Hacc by assumption. auto.
    + right. split; [right; assumption|]. eauto.
Qed.

Lemma index_curves_complete (h : gmap fref fcurve) (curves : list fref)
    (acc idx : gmap Z fref) :
  index_curves h curves acc = Ok idx ->
  (forall i, is_Some (acc !! i) -> is_Some (idx !! i))
  /\ (forall r fc, r ∈ curves -> h !! r = Some fc ->
                   is_Some (idx !! array_index fc)).
Proof.
  revert acc. induction curves as [|r0 rest IH]; intros acc Hidx.
  - injection Hidx as <-. split; [auto|]. intros r fc Hin.
    apply elem_of_nil in Hin. contradiction.
  - simpl in Hidx. destruct (h !! r0) as [fc0|] eqn:H0; [|discriminate].
    destruct (IH _ Hidx) as [Hacc Hrest]. split.
    + intros i [r Hi]. apply Hacc.
      destruct (decide (array_index fc0 = i)) as [<-|Hne].
      * rewrite lookup_insert_eq. eauto.
      * rewrite lookup_insert_ne by assumption. eauto.
    + intros r fc Hin Hfc. apply elem_of_cons in Hin as [->|Hin].
      * apply Hacc. replace fc with fc0 by congruence.
        rewrite lookup_insert_eq. eauto.
      * eauto.
Qed.

(** C6: an action with an [fcurves] attribute gives that collection;
    otherwise the channelbags are visited layer by layer, strip by strip,
    and the collection of the first channelbag that has one is returned;
    the index built from the curves selects a curve by its [array_index],
    and finds one for every index that occurs. *)
Theorem fcurves_found_with_fallback (a : action) :
  (forall c, act_fcurves a = Some c -> get_action_fcurves a = Ok c)
  /\ (act_fcurves a = None ->
      forall c, get_action_fcurves a = Ok c <->
        exists before bag after,
          all_bags a = before ++ bag :: after /\ bag_fcurves bag = Some c
          /\ Forall (fun b => bag_fcurves b = None) before)
  /\ (forall (h : gmap fref fcurve) (c : list fref) (by_index : gmap Z fref),
        get_action_fcurves a = Ok c ->
        index_curves h c ∅ = Ok by_index ->
        (forall i r, by_index !! i = Some r ->
           r ∈ c /\ exists fc, h !! r = Some fc /\ array_index fc = i)
        /\ (forall r fc, r ∈ c -> h !! r = Some fc ->
               is_Some (by_index !! array_index fc))).
Proof.
  split; [|split].
  - intros c Hc. unfold get_action_fcurves. rewrite Hc. reflexivity.
  - intros Hnone c. rewrite get_action_fcurves_layered by assumption.
    rewrite <- first_curves_some.
    destruct (first_curves (all_bags a)); split; congruence.
  - intros h c by_index _ Hidx. split.
    + intros i r Hi.
      destruct (index_curves_sound _ _ _ _ Hidx i r Hi) as [Hempty|?];
        [|assumption].
      rewrite lookup_empty in Hempty. discriminate.
    + apply (index_curves_complete _ _ _ _ Hidx).
Qed.

Lemma fcurves_found_with_fallback_witness :
  get_action_fcurves legacy_action = Ok [20; 10; 11; 12; 13]%nat
  /\ get_action_fcurves layered_action = Ok [10; 11; 12]%nat.
Proof.
  split.
  - apply (proj1 (fcurves_found_with_fallback legacy_action)). reflexivity.
  - apply (proj1 (proj2 (fcurves_found_with_fallback layered_action))
             eq_refl).
    exists [ {| bag_fcurves := None |} ], {| bag_fcurves := Some [10; 11; 12]%nat |},
      [ {| bag_fcurves := Some [20]%nat |} ].
    repeat split. repeat constructor.
Defined.

(** ** Early return on a missing object *)

(** C5: with no action of the given name [update_color_fcurves] returns
    [None] and leaves the state as it is, and so does
    [keyframe_principled] with no material of the given name. *)
Theorem missing_object_returns_early (st : bpy_data) (name : string) :
  (actions st !! name = None ->
   forall keyframes,
     update_color_fcurves name keyframes st = (st, Ok None))
  /\ (materials st !! name = None ->
      forall base_keyframes emission_keyframes emission_strength
             viewport_color specular_value specular_color,
        keyframe_principled name base_keyframes emission_keyframes
          emission_strength viewport_color specular_value specular_color st
        = (st, Ok None)).
Proof.
  split.
  - intros Hnone keyframes.
    unfold update_color_fcurves, get_state, mbind, host_bind.
    rewrite Hnone. reflexivity.
  - intros Hnone **.
    unfold keyframe_principled, get_state, mbind, host_bind.
    rewrite Hnone. reflexivity.
Qed.

Lemma missing_object_returns_early_witness :
  update_color_fcurves "NoSuchAction"
    [(PInt 1, PList [PFloat 1.0; PFloat 0.5; PFloat 0.0])] sample_data
  = (sample_data, Ok None)
  /\ keyframe_principled "NoSuchMaterial" None None None
       (Some (PList [PFloat 1.0; PFloat 0.5; PFloat 0.0])) None None
       sample_data
     = (sample_data, Ok None).
Proof.
  split.
  - apply (proj1 (missing_object_returns_early sample_data "NoSuchAction")).
    reflexivity.
  - apply (proj2 (missing_object_returns_early sample_data "NoSuchMaterial")).
    reflexivity.
Defined.

(** ** Writes of [update_color_fcurves] stay in range *)

Lemma curve_kept_refl (n : nat) (fc : fcurve) : curve_kept n fc fc.
Proof. repeat split; auto. Qed.

Lemma store_kept_refl (n : nat) (touched : fref -> Prop)
    (h : gmap fref fcurve) :
  store_kept n touched h h.
Proof.
  intros r. destruct (h !! r) as [fc|] eqn:Hr; [|reflexivity].
  exists fc. auto using curve_kept_refl.
Qed.

Lemma set_keyframe_kept (n point : nat) (frame value : pyval)
    (fc0 fc : fcurve) :
  (point < n)%nat -> 0 <= array_index fc0 < 3 ->
  curve_kept n fc0 fc ->
  curve_kept n fc0 (set_keyframe point frame value fc).
Proof.
  intros Hpoint Hidx (Hpath & Harr & Hlen & Hhigh & _).
  repeat split; simpl; auto.
  - rewrite length_alter. assumption.
  - intros p Hp. rewrite list_lookup_alter_ne by lia. auto.
  - intros Hout. contradiction.
Qed.

Lemma for_each_invariant {S A : Type} (I : S -> Prop) (xs : list A)
    (body : A -> host S unit) :
  (forall x s, x ∈ xs -> I s -> I (body x s).1) ->
  forall s, I s -> I (for_each xs body s).1.
Proof.
  induction xs as [|x rest IH]; intros Hbody s Hs; [assumption|].
  simpl. rewrite host_bind_run.
  pose proof (Hbody x s ltac:(left) Hs) as Hx.
  destruct (body x s) as [s' [[]|e]]; simpl in *; [|assumption].
  apply IH; [|assumption]. intros y t Hy. apply Hbody. right. assumption.
Qed.

Lemma update_channel_kept (n : nat) (touched : fref -> Prop)
    (h0 h : gmap fref fcurve) (by_index : gmap Z fref)
    (point i : nat) (frame color : pyval) :
  (forall j r, by_index !! j = Some r ->
     touched r /\ exists fc, h0 !! r = Some fc /\ array_index fc = j) ->
  (point < n)%nat -> (i < 3)%nat ->
  store_kept n touched h0 h ->
  store_kept n touched h0 (update_channel by_index point frame color i h).1.
Proof.
  intros Hindex Hpoint Hi Hkept. unfold update_channel.
  destruct (by_index !! Z.of_nat i) as [r|] eqn:Hr; [|assumption].
  destruct (Hindex _ _ Hr) as (Htouched & fc0 & Hfc0 & Harr).
  pose proof (Hkept r) as Hkr. rewrite Hfc0 in Hkr.
  destruct Hkr as (fc & Hfc & Hcurve & _).
  rewrite host_bind_run. unfold deref. rewrite Hfc.
  destruct (length (keyframe_points fc) <=? point)%nat; [assumption|].
  rewrite host_bind_run. unfold lift.
  destruct (py_getitem color i) as [value|e]; [|assumption].
  simpl. intros r'. specialize (Hkept r').
  destruct (decide (r' = r)) as [->|Hne].
  - rewrite Hfc0. rewrite lookup_alter_eq, Hfc. simpl.
    eexists. split; [reflexivity|]. split.
    + apply set_keyframe_kept; [assumption | lia | assumption].
    + intros Hnot. contradiction.
  - rewrite lookup_alter_ne by congruence. assumption.
Qed.

Lemma color_loop_kept (touched : fref -> Prop) (h : gmap fref fcurve)
    (by_index : gmap Z fref) (keyframes : list (pyval * pyval)) :
  (forall j r, by_index !! j = Some r ->
     touched r /\ exists fc, h !! r = Some fc /\ array_index fc = j) ->
  store_kept (length keyframes) touched h
    (for_each (enumerate keyframes) (fun '(point, (frame, color)) =>
       for_each (seq 0 3) (update_channel by_index point frame color)) h).1.
Proof.
  intros Hindex.
  apply (for_each_invariant (store_kept (length keyframes) touched h));
    [|apply store_kept_refl].
  intros [point [frame color]] s Hin Hs.
  apply elem_of_lookup_imap in Hin as (p & kf & Heq & Hp).
  injection Heq as ? ?; subst. apply lookup_lt_Some in Hp.
  apply (for_each_invariant (store_kept (length keyframes) touched h));
    [|assumption].
  intros i t Hi Ht. apply elem_of_seq in Hi.
  apply update_channel_kept; auto with lia.
Qed.

Lemma update_color_fcurves_kept (st : bpy_data) (action_name : string)
    (keyframes : list (pyval * pyval)) :
  let st' := (update_color_fcurves action_name keyframes st).1 in
  actions st' = actions st /\ materials st' = materials st
  /\ exists touched,
       store_kept (length keyframes) touched (fcurves st) (fcurves st').
Proof.
  unfold update_color_fcurves. rewrite host_bind_run. unfold get_state.
  destruct (actions st !! action_name) as [a|];
    [|simpl; repeat split; exists (fun _ => True); apply store_kept_refl].
  rewrite host_bind_run. unfold lift.
  destruct (get_action_fcurves a) as [curves|e];
    [|simpl; repeat split; exists (fun _ => True); apply store_kept_refl].
  rewrite host_bind_run.
  destruct (index_curves (fcurves st) curves ∅) as [by_index|e] eqn:Hidx;
    [|simpl; repeat split; exists (fun _ => True); apply store_kept_refl].
  rewrite host_bind_run. unfold zoom.
  pose proof (color_loop_kept (fun r => r ∈ curves) (fcurves st) by_index
                keyframes) as Hloop.
  destruct (for_each _ _ (fcurves st)) as [h' res]. simpl in Hloop.
  assert (Hkept : store_kept (length keyframes) (fun r => r ∈ curves)
                    (fcurves st) h').
  { apply Hloop. intros j r Hj.
    destruct (index_curves_sound _ _ _ _ Hidx j r Hj) as [Hempty|?];
      [|assumption].
    rewrite lookup_empty in Hempty. discriminate. }
  destruct res as [[]|e]; simpl; repeat split; eauto.
Qed.

(** C10: the update adds and removes no curve and no keyframe point; a
    keyframe point is changed only on a curve whose array index is 0, 1
    or 2, at a position below the number of keyframe points of that
    curve and below the number of keyframes given; curves of other array
    indices, and everything else in the host data, are as before. *)
Theorem update_color_fcurves_in_range (st : bpy_data) (action_name : string)
    (keyframes : list (pyval * pyval)) :
  let st' := (update_color_fcurves action_name keyframes st).1 in
  actions st' = actions st /\ materials st' = materials st
  /\ forall r,
       match fcurves st !! r with
       | None => fcurves st' !! r = None
       | Some fc =>
           exists fc',
             fcurves st' !! r = Some fc'
             /\ array_index fc' = array_index fc
             /\ length (keyframe_points fc') = length (keyframe_points fc)
             /\ (~ (0 <= array_index fc < 3) -> fc' = fc)
             /\ (forall p,
                   keyframe_points fc' !! p <> keyframe_points fc !! p ->
                   0 <= array_index fc < 3
                   /\ (p < length (keyframe_points fc))%nat
                   /\ (p < length keyframes)%nat)
       end.
Proof.
  destruct (update_color_fcurves_kept st action_name keyframes)
    as (Hact & Hmat & touched & Hkept).
  intros st'. split; [assumption|]. split; [assumption|].
  intros r. specialize (Hkept r).
  destruct (fcurves st !! r) as [fc|]; [|assumption].
  destruct Hkept as (fc' & Hfc' & (_ & Harr & Hlen & Hhigh & Hother) & _).
  exists fc'. do 4 (split; [assumption|]).
  intros p Hdiff.
  destruct (decide (0 <= array_index fc < 3)) as [Hin|Hout];
    [|rewrite (Hother Hout) in Hdiff; contradiction].
  split; [assumption|].
  destruct (decide (p < length (keyframe_points fc))%nat) as [Hp|Hp].
  - split; [assumption|].
    destruct (decide (p < length keyframes)%nat) as [Hk|Hk]; [assumption|].
    exfalso. apply Hdiff, Hhigh. lia.
  - exfalso. apply Hdiff. rewrite !lookup_ge_None_2 by lia. reflexivity.
Qed.

Lemma update_color_fcurves_in_range_witness :
  fcurves (update_color_fcurves "ColorAction"
             [(PInt 1, PList [PFloat 1.0; PFloat 0.5; PFloat 0.0]);
              (PInt 50, PList [PFloat 0.0; PFloat 0.5; PFloat 1.0])]
             sample_data).1 !! 13%nat
  = fcurves sample_data !! 13%nat.
Proof.
  pose proof (update_color_fcurves_in_range sample_data "ColorAction"
    [(PInt 1, PList [PFloat 1.0; PFloat 0.5; PFloat 0.0]);
     (PInt 50, PList [PFloat 0.0; PFloat 0.5; PFloat 1.0])]) as (_ & _ & H).
  specialize (H 13%nat).
  change (fcurves sample_data !! 13%nat) with
    (Some {| data_path := "color"; array_index := 3;
             keyframe_points := [sample_point 1 1; sample_point 50 1] |})
    in H |- *.
  destruct H as (fc' & Hfc' & _ & _ & Hsame & _).
  transitivity (Some fc'); [exact Hfc'|].
  f_equal. apply Hsame. simpl. lia.
Defined.

Example update_color_fcurves_sample :
  let st' := (update_color_fcurves "ColorAction"
                [(PInt 1, PList [PFloat 1.0; PFloat 0.5; PFloat 0.0]);
                 (PInt 50, PList [PFloat 0.0; PFloat 0.5; PFloat 1.0])]
                sample_data).1 in
  (co <$> (fcurves st' !! 10%nat ≫= fun fc => keyframe_points fc !! 1%nat))
  = Some (PInt 50, PFloat 0.0)
  /\ (length <$> (keyframe_points <$> fcurves st' !! 11%nat)) = Some 1%nat
  /\ fcurves st' !! 20%nat = fcurves sample_data !! 20%nat.
Proof. vm_compute. repeat split. Qed.

(** ** The model on the sample data *)

Example render_script_lens_flare :
  let run := render_script (Some lens_flare_injected) blank_scene in
  run.2 = Ok tt
  /\ frame_start run.1 = PInt 1 /\ frame_end run.1 = PInt 250
  /\ fps (render run.1) = PInt 30
  /\ fps_base (render run.1) = fps_base blank_render
  /\ film_transparent (render run.1) = PInt 1
  /\ frame_map_old (render run.1) = PInt 1
  /\ frame_map_new (render run.1) = PInt 1
  /\ (render_script None blank_scene).2 = Raise KeyError.
Proof. vm_compute. repeat split. Qed.

Example keyframe_principled_sample :
  let run := keyframe_principled "Material.001"
               (Some [(PInt 1, PList [PFloat 1.0; PFloat 0.0; PFloat 0.0])])
               None None
               (Some (PList [PFloat 0.25; PFloat 0.25; PFloat 0.25]))
               (Some (PFloat 1.45)) None sample_data in
  run.2 = Ok (Some "Material.001")
  /\ (diffuse_color <$> materials run.1 !! "Material.001")
     = Some (PList [PFloat 0.25; PFloat 0.25; PFloat 0.25; PFloat 1.0])
  /\ (default_value <$> socket_of "Material.001" 0 run.1)
     = Some (PList [PFloat 1.0; PFloat 0.0; PFloat 0.0; PFloat 1.0])
  /\ ((fun sk => key_index <$> sock_keys sk)
        <$> socket_of "Material.001" 0 run.1)
     = Some [Some 0; Some 1; Some 2; Some 3]%nat
  /\ (default_value <$> socket_of "Material.001" 3 run.1)
     = Some (PFloat 1.45)
  /\ (default_value <$> socket_of "Material.001" 2 run.1)
     = Some (PFloat 0.5).
Proof. vm_compute. repeat split. Qed.

(** * Further properties of the code *)

(** ** Colors *)

(** X1: on a sequence [ensure_rgba] keeps the red, green and blue
    components where they are, and the alpha it appends to a shorter
    sequence is 1.0. *)
Theorem ensure_rgba_keeps_rgb (c r : pyval) :
  is_sequence c = true -> ensure_rgba c = Ok r ->
  (forall i, (i < 3)%nat -> py_getitem r i = py_getitem c i)
  /\ (forall n, py_len c = Ok n -> (n < 4)%nat ->
      py_getitem r 3 = Ok (PFloat 1%float)).
Proof.
  intros Hseq Hr. destruct c as [| | | |s|l|]; try discriminate.
  - destruct s as [|a [|b [|c [|d s]]]]; try discriminate;
      injection Hr as <-; split.
    + intros [|[|[|i]]] Hi; try lia; reflexivity.
    + reflexivity.
    + intros i Hi. reflexivity.
    + intros n [= <-] Hn. simpl in Hn. lia.
  - destruct l as [|a [|b [|c [|d l]]]]; try discriminate;
      injection Hr as <-; split.
    + intros [|[|[|i]]] Hi; try lia; reflexivity.
    + reflexivity.
    + intros i Hi. reflexivity.
    + intros n [= <-] Hn. simpl in Hn. lia.
Qed.

Lemma ensure_rgba_keeps_rgb_witness :
  py_getitem (PList [PFloat 0.25; PFloat 0.5; PFloat 0.75; PFloat 1.0]) 1
  = py_getitem (PList [PFloat 0.25; PFloat 0.5; PFloat 0.75]) 1.
Proof.
  apply (proj1 (ensure_rgba_keeps_rgb
                  (PList [PFloat 0.25; PFloat 0.5; PFloat 0.75])
                  (PList [PFloat 0.25; PFloat 0.5; PFloat 0.75; PFloat 1.0])
                  eq_refl eq_refl)).
  lia.
Defined.

Lemma ensure_rgba_raise_exn (v : pyval) :
  rgba_raises v = true -> ensure_rgba v = Raise (rgba_exception v).
Proof.
  intros Hv. destruct v as [| | | |s|l|d]; try reflexivity.
  - destruct s as [|a [|b [|c s]]]; try reflexivity. discriminate.
  - destruct l as [|a [|b [|c l]]]; try reflexivity. discriminate.
  - simpl in Hv. apply Nat.ltb_lt in Hv.
    unfold ensure_rgba, py_len, py_getitem, mbind, pyres_bind.
    destruct (4 <=? length d)%nat eqn:E; [apply Nat.leb_le in E; lia|].
    reflexivity.
Qed.

(** X2: [ensure_rgba] raises exactly on the values without a length, the
    sequences of fewer than 3 components and the dicts of fewer than 4
    entries, with [TypeError], [IndexError] and [KeyError] in turn. *)
Theorem ensure_rgba_error_kind (v : pyval) :
  (rgba_raises v = true -> ensure_rgba v = Raise (rgba_exception v))
  /\ (forall e, ensure_rgba v = Raise e -> rgba_raises v = true).
Proof.
  split; [apply ensure_rgba_raise_exn|].
  intros e He. destruct (rgba_raises v) eqn:Hv; [reflexivity|].
  destruct (ensure_rgba_ok v Hv) as (r & n & Hr & _). congruence.
Qed.

Lemma ensure_rgba_error_kind_witness :
  ensure_rgba (PList [PFloat 0.5; PFloat 0.5]) = Raise IndexError.
Proof.
  apply (proj1 (ensure_rgba_error_kind (PList [PFloat 0.5; PFloat 0.5]))).
  reflexivity.
Defined.

(** X3: a result of [_safe_rgba] is a fixed point of it: coercing a
    color twice is the same as coercing it once. *)
Theorem safe_rgba_idempotent (parse : string -> option float)
    (value r : pyval) :
  _safe_rgba parse value = Ok r -> _safe_rgba parse r = Ok r.
Proof.
  intros Hr. unfold _safe_rgba in Hr.
  destruct (rgba_raises value) eqn:Hv.
  - destruct (ensure_rgba_raises value Hv) as (e & He). rewrite He in Hr.
    simpl in Hr. destruct (py_float parse value) as [f|e'];
      simpl in Hr; injection Hr as <-; reflexivity.
  - destruct (ensure_rgba_ok value Hv) as (r' & n & Hr' & _ & _ & Hfix).
    rewrite Hr' in Hr. simpl in Hr. injection Hr as <-.
    unfold _safe_rgba. rewrite Hfix. reflexivity.
Qed.

Lemma safe_rgba_idempotent_witness :
  _safe_rgba (fun _ => None) (gray 0.5) = Ok (gray 0.5).
Proof.
  apply (safe_rgba_idempotent (fun _ => None) (PFloat 0.5)). reflexivity.
Defined.

(** ** Socket keyframing *)

Lemma for_each_app {S A : Type} (xs ys : list A) (body : A -> host S unit)
    (s : S) :
  for_each (xs ++ ys) body s = (for_each xs body;; for_each ys body) s.
Proof.
  revert s. induction xs as [|x xs IH]; intros s; [reflexivity|].
  simpl. rewrite !host_bind_run.
  destruct (body x s) as [s' [[]|e]]; [|reflexivity].
  rewrite IH, host_bind_run. reflexivity.
Qed.

Lemma color_step (frame color rgba : pyval) (sk : socket) :
  ensure_rgba color = Ok rgba ->
  (rgba ← lift (ensure_rgba color);
   modify (set_default_value rgba);;
   for_each (seq 0 4) (fun idx => modify (keyframe_insert (Some idx) frame)))
    sk
  = ({| sock_name := sock_name sk; sock_type := sock_type sk;
        default_value := rgba;
        sock_keys := sock_keys sk ++ color_keys (frame, color) |}, Ok tt).
Proof.
  intros Hrgba. unfold color_keys. cbn [fst snd]. rewrite Hrgba.
  rewrite host_bind_run. unfold lift.
  cbv [for_each seq modify mbind host_bind mret host_ret keyframe_insert
       set_default_value sock_name sock_type default_value sock_keys
       fmap list_fmap].
  rewrite <- !app_assoc. reflexivity.
Qed.

Lemma keyframe_color_socket_run (keyframes : list (pyval * pyval))
    (sk : socket) :
  Forall (fun kf => rgba_raises kf.2 = false) keyframes ->
  keyframe_color_socket keyframes sk
  = ({| sock_name := sock_name sk; sock_type := sock_type sk;
        default_value :=
          match last keyframes with
          | Some kf => default PNone (last (key_value <$> color_keys kf))
          | None => default_value sk
          end;
        sock_keys := sock_keys sk ++ (keyframes ≫= color_keys) |}, Ok tt).
Proof.
  unfold keyframe_color_socket. revert sk.
  induction keyframes as [|[frame color] rest IH]; intros sk Hall.
  - simpl. rewrite app_nil_r. destruct sk; reflexivity.
  - inversion Hall as [|? ? Hok Hrest]; subst. simpl in Hok.
    destruct (ensure_rgba_ok color Hok) as (rgba & n & Hrgba & _).
    cbn [for_each]. rewrite host_bind_run, (color_step _ _ _ _ Hrgba).
    rewrite (IH _ Hrest). simpl. f_equal. f_equal.
    + destruct rest as [|kf rest'].
      * simpl. unfold color_keys. simpl. rewrite Hrgba. reflexivity.
      * rewrite (last_cons (frame, color)).
        destruct (last (kf :: rest')) eqn:Hlast; [reflexivity|].
        apply last_None in Hlast. discriminate.
    + rewrite <- app_assoc. reflexivity.
Qed.

Lemma color_keys_length (keyframes : list (pyval * pyval)) :
  Forall (fun kf => rgba_raises kf.2 = false) keyframes ->
  length (keyframes ≫= color_keys) = (4 * length keyframes)%nat.
Proof.
  induction 1 as [|[frame color] rest Hok Hrest IH]; [reflexivity|].
  rewrite bind_cons, length_app, IH.
  destruct (ensure_rgba_ok color Hok) as (rgba & n & Hrgba & _).
  unfold color_keys. cbn [fst snd]. rewrite Hrgba.
  rewrite length_fmap, length_seq. simpl. lia.
Qed.

(** X4: when every keyframe color has its three components,
    [keyframe_color_socket] succeeds; it appends four keys per keyframe,
    for the components 0 to 3 in order, each on that keyframe's color
    with its alpha, leaves the socket's name and type alone, and the
    socket ends on the color of the last keyframe. *)
Theorem keyframe_color_socket_keys (keyframes : list (pyval * pyval))
    (sk : socket) :
  Forall (fun kf => rgba_raises kf.2 = false) keyframes ->
  let run := keyframe_color_socket keyframes sk in
  run.2 = Ok tt
  /\ sock_name run.1 = sock_name sk /\ sock_type run.1 = sock_type sk
  /\ sock_keys run.1 = sock_keys sk ++ (keyframes ≫= color_keys)
  /\ length (sock_keys run.1)
     = (length (sock_keys sk) + 4 * length keyframes)%nat
  /\ (forall frame color, last keyframes = Some (frame, color) ->
        ensure_rgba color = Ok (default_value run.1)).
Proof.
  intros Hall run. unfold run.
  rewrite (keyframe_color_socket_run keyframes sk Hall). simpl.
  repeat split.
  - rewrite length_app, (color_keys_length keyframes Hall). reflexivity.
  - intros frame color Hlast. rewrite Hlast.
    assert (Hok : rgba_raises color = false).
    { apply last_Some in Hlast as [pre ->].
      apply Forall_app in Hall as [_ Hall]. inversion Hall; assumption. }
    destruct (ensure_rgba_ok color Hok) as (rgba & n & Hrgba & _).
    unfold color_keys. simpl. rewrite Hrgba. reflexivity.
Qed.

Lemma keyframe_color_socket_keys_witness :
  length (sock_keys
    (keyframe_color_socket
       [(PInt 1, PList [PFloat 1.0; PFloat 0.0; PFloat 0.0]);
        (PInt 50, PList [PFloat 0.0; PFloat 0.0; PFloat 1.0; PFloat 0.5])]
       (sample_socket "Base Color" "RGBA" PNone)).1)
  = 8%nat.
Proof.
  apply (keyframe_color_socket_keys
    [(PInt 1, PList [PFloat 1.0; PFloat 0.0; PFloat 0.0]);
     (PInt 50, PList [PFloat 0.0; PFloat 0.0; PFloat 1.0; PFloat 0.5])]
    (sample_socket "Base Color" "RGBA" PNone)).
  repeat constructor.
Defined.

(** X5: at the first keyframe whose color lacks a component
    [keyframe_color_socket] raises, and the socket stays as the keyframes
    before it left it: their keys are inserted, the later ones are not. *)
Theorem keyframe_color_socket_partial (good rest : list (pyval * pyval))
    (frame bad : pyval) (sk : socket) :
  Forall (fun kf => rgba_raises kf.2 = false) good ->
  rgba_raises bad = true ->
  keyframe_color_socket (good ++ (frame, bad) :: rest) sk
  = ((keyframe_color_socket good sk).1, Raise (rgba_exception bad)).
Proof.
  intros Hgood Hbad. unfold keyframe_color_socket at 1.
  rewrite for_each_app, host_bind_run.
  fold (keyframe_color_socket good).
  rewrite (keyframe_color_socket_run good sk Hgood).
  cbn [for_each fst]. rewrite !host_bind_run. unfold lift.
  rewrite (ensure_rgba_raise_exn bad Hbad). reflexivity.
Qed.

Lemma keyframe_color_socket_partial_witness :
  keyframe_color_socket
    ([(PInt 1, PList [PFloat 1.0; PFloat 0.0; PFloat 0.0])]
       ++ (PInt 50, PList [PFloat 0.0; PFloat 1.0]) :: [])
    (sample_socket "Base Color" "RGBA" PNone)
  = ((keyframe_color_socket
        [(PInt 1, PList [PFloat 1.0; PFloat 0.0; PFloat 0.0])]
        (sample_socket "Base Color" "RGBA" PNone)).1,
     Raise IndexError).
Proof.
  apply (keyframe_color_socket_partial
    [(PInt 1, PList [PFloat 1.0; PFloat 0.0; PFloat 0.0])] []
    (PInt 50) (PList [PFloat 0.0; PFloat 1.0])
    (sample_socket "Base Color" "RGBA" PNone)).
  - repeat constructor.
  - reflexivity.
Defined.

Lemma insert_frames_run (frames : list pyval) (sk : socket) :
  for_each frames (fun frame => modify (keyframe_insert None frame)) sk
  = ({| sock_name := sock_name sk; sock_type := sock_type sk;
        default_value := default_value sk;
        sock_keys := sock_keys sk
                     ++ (value_key (default_value sk) <$> frames) |}, Ok tt).
Proof.
  revert sk. induction frames as [|frame rest IH]; intros sk.
  - simpl. rewrite app_nil_r. destruct sk; reflexivity.
  - cbn [for_each]. rewrite host_bind_run. cbv [modify].
    rewrite IH. simpl. rewrite <- app_assoc. reflexivity.
Qed.

(** X6: [keyframe_value_socket] never raises: the socket takes the value
    and gets one key per frame, in the order of the frames, every key on
    that same value and without a component index. *)
Theorem keyframe_value_socket_keys (value : pyval) (frames : list pyval)
    (sk : socket) :
  keyframe_value_socket value frames sk
  = ({| sock_name := sock_name sk; sock_type := sock_type sk;
        default_value := value;
        sock_keys := sock_keys sk ++ (value_key value <$> frames) |}, Ok tt).
Proof.
  unfold keyframe_value_socket. rewrite host_bind_run. cbv [modify].
  rewrite insert_frames_run. reflexivity.
Qed.

(** ** Reasoning about host code *)

Lemma keeps_bind {S A B : Type} (I : S -> Prop) (m : host S A)
    (k : A -> host S B) :
  keeps I m -> (forall a, keeps I (k a)) -> keeps I (m ≫= k).
Proof.
  intros Hm Hk s Hs. rewrite host_bind_run. specialize (Hm s Hs).
  destruct (m s) as [s' [a|e]]; [|assumption]. apply Hk. assumption.
Qed.

Lemma keeps_ret {S A : Type} (I : S -> Prop) (a : A) :
  keeps I (mret a : host S A).
Proof. intros s Hs. assumption. Qed.

Lemma keeps_lift {S A : Type} (I : S -> Prop) (r : pyres A) :
  keeps I (lift r : host S A).
Proof. intros s Hs. assumption. Qed.

Lemma keeps_get {S : Type} (I : S -> Prop) : keeps I (get_state : host S S).
Proof. intros s Hs. assumption. Qed.

Lemma keeps_for_each {S A : Type} (I : S -> Prop) (xs : list A)
    (body : A -> host S unit) :
  (forall x, keeps I (body x)) -> keeps I (for_each xs body).
Proof.
  intros Hbody s Hs. apply for_each_invariant; [|assumption].
  intros x t _. apply Hbody.
Qed.

Lemma extends_keeps {S A : Type} (R : S -> S -> Prop) (m : host S A) :
  (forall s0, keeps (R s0) m) -> (forall s, R s s) -> extends R m.
Proof. intros Hkeeps Hrefl s. apply Hkeeps, Hrefl. Qed.

Lemma returns_bind {S A B : Type} (P : B -> Prop) (m : host S A)
    (k : A -> host S B) :
  (forall a, returns P (k a)) -> returns P (m ≫= k).
Proof.
  intros Hk s b. rewrite host_bind_run.
  destruct (m s) as [s' [a|e]]; [apply Hk | discriminate].
Qed.

(** ** Sockets and materials under keyframing *)

Lemma socket_grown_refl (sk : socket) : socket_grown sk sk.
Proof. repeat split; reflexivity. Qed.

Lemma socket_grown_trans (a b c : socket) :
  socket_grown a b -> socket_grown b c -> socket_grown a c.
Proof.
  intros (Hn1 & Ht1 & Hk1) (Hn2 & Ht2 & Hk2).
  repeat split; try congruence. etransitivity; eassumption.
Qed.

Lemma set_default_value_grown (sk0 : socket) (v : pyval) :
  keeps (socket_grown sk0) (modify (set_default_value v)).
Proof.
  intros sk Hsk. eapply socket_grown_trans; [eassumption|].
  repeat split; reflexivity.
Qed.

Lemma keyframe_insert_grown (sk0 : socket) (idx : option nat)
    (frame : pyval) :
  keeps (socket_grown sk0) (modify (keyframe_insert idx frame)).
Proof.
  intros sk Hsk. eapply socket_grown_trans; [eassumption|].
  repeat split; try reflexivity. simpl. apply prefix_app_r. reflexivity.
Qed.

Lemma keyframe_color_socket_grown (sk0 : socket)
    (keyframes : list (pyval * pyval)) :
  keeps (socket_grown sk0) (keyframe_color_socket keyframes).
Proof.
  apply keeps_for_each. intros [frame color].
  apply keeps_bind; [apply keeps_lift|]. intros rgba.
  apply keeps_bind; [apply set_default_value_grown|]. intros _.
  apply keeps_for_each. intros idx. apply keyframe_insert_grown.
Qed.

Lemma keyframe_value_socket_grown (sk0 : socket) (value : pyval)
    (frames : list pyval) :
  keeps (socket_grown sk0) (keyframe_value_socket value frames).
Proof.
  apply keeps_bind; [apply set_default_value_grown|]. intros _.
  apply keeps_for_each. intros frame. apply keyframe_insert_grown.
Qed.

Lemma node_grown_refl (nd : node) : node_grown nd nd.
Proof. apply Forall2_same_length_lookup_2; [reflexivity|].
  intros i x y Hx Hy. replace y with x by congruence. apply socket_grown_refl.
Qed.

Lemma node_grown_trans (a b c : node) :
  node_grown a b -> node_grown b c -> node_grown a c.
Proof.
  unfold node_grown. intros Hab Hbc.
  eapply Forall2_trans; [|eassumption..].
  intros x y z. apply socket_grown_trans.
Qed.

Lemma tree_grown_refl (nt : node_tree) : tree_grown nt nt.
Proof.
  intros key. destruct (nodes nt !! key); [|exact I].
  split; [apply node_grown_refl | reflexivity].
Qed.

Lemma tree_grown_trans (a b c : node_tree) :
  tree_grown a b -> tree_grown b c -> tree_grown a c.
Proof.
  intros Hab Hbc key. specialize (Hab key). specialize (Hbc key).
  destruct (nodes a !! key), (nodes b !! key), (nodes c !! key);
    try contradiction; try exact I.
  destruct Hab as [Hab1 Hab2], Hbc as [Hbc1 Hbc2]. split.
  - eapply node_grown_trans; eassumption.
  - intros Hne. rewrite (Hbc2 Hne). auto.
Qed.

Lemma material_grown_refl (m : material) : material_grown m m.
Proof.
  unfold material_grown. destruct (mat_node_tree m); [|exact I].
  apply tree_grown_refl.
Qed.

Lemma material_grown_trans (a b c : material) :
  material_grown a b -> material_grown b c -> material_grown a c.
Proof.
  unfold material_grown.
  destruct (mat_node_tree a), (mat_node_tree b), (mat_node_tree c);
    try contradiction; try (intros; exact I).
  apply tree_grown_trans.
Qed.

Lemma data_grown_refl (name : string) (st : bpy_data) : data_grown name st st.
Proof.
  repeat split. intros key. destruct (materials st !! key); [|exact I].
  split; [apply material_grown_refl | reflexivity].
Qed.

Lemma data_grown_trans (name : string) (a b c : bpy_data) :
  data_grown name a b -> data_grown name b c -> data_grown name a c.
Proof.
  intros (Ha1 & Hf1 & Hm1) (Ha2 & Hf2 & Hm2).
  split; [congruence|]. split; [congruence|].
  intros key. specialize (Hm1 key). specialize (Hm2 key).
  destruct (materials a !! key), (materials b !! key), (materials c !! key);
    try contradiction; try exact I.
  destruct Hm1 as [Hg1 He1], Hm2 as [Hg2 He2]. split.
  - eapply material_grown_trans; eassumption.
  - intros Hne. rewrite (He2 Hne). auto.
Qed.

Lemma put_socket_lookup (name key : string) (i : nat) (sk : socket)
    (st : bpy_data) :
  materials (put_socket name i sk st) !! key =
  if decide (key = name) then
    (fun mat =>
       {| diffuse_color := diffuse_color mat;
          specular_color := specular_color mat;
          mat_node_tree :=
            (fun nt =>
               {| nodes := alter (fun nd => {| inputs := <[i := sk]> (inputs nd) |})
                                 principled (nodes nt) |})
              <$> mat_node_tree mat |}) <$> materials st !! key
  else materials st !! key.
Proof.
  unfold put_socket. simpl. destruct (decide (key = name)) as [->|Hne].
  - rewrite lookup_alter_eq. reflexivity.
  - rewrite lookup_alter_ne by congruence. reflexivity.
Qed.

Lemma put_socket_grown (name : string) (i : nat) (sk sk' : socket)
    (st : bpy_data) :
  socket_of name i st = Some sk -> socket_grown sk sk' ->
  data_grown name st (put_socket name i sk' st).
Proof.
  intros Hsock Hgrown. split; [reflexivity|]. split; [reflexivity|].
  intros key. rewrite put_socket_lookup.
  destruct (decide (key = name)) as [->|Hne].
  - unfold socket_of, _get_principled_node in Hsock.
    destruct (materials st !! name) as [mat|]; [|discriminate].
    simpl in *. split; [|congruence].
    unfold material_grown. simpl.
    destruct (mat_node_tree mat) as [nt|]; [|discriminate]. simpl in *.
    intros key. cbn [nodes].
    destruct (decide (key = principled)) as [->|Hk].
    + rewrite lookup_alter_eq.
      destruct (nodes nt !! principled) as [bsdf|]; [|discriminate].
      simpl in *. split; [|congruence].
      unfold node_grown. simpl.
      rewrite <- (list_insert_id (inputs bsdf) i sk) at 1 by assumption.
      apply Forall2_insert; [|assumption].
      apply (node_grown_refl bsdf).
    + rewrite lookup_alter_ne by congruence.
      destruct (nodes nt !! key); [|exact I].
      split; [apply node_grown_refl | reflexivity].
  - destruct (materials st !! key); [|exact I].
    split; [apply material_grown_refl | reflexivity].
Qed.

Lemma on_socket_grown {A : Type} (name : string) (i : nat)
    (m : host socket A) (st0 : bpy_data) :
  (forall sk0, keeps (socket_grown sk0) m) ->
  keeps (data_grown name st0) (on_socket name i m).
Proof.
  intros Hm st Hst. unfold on_socket, zoom.
  destruct (socket_of name i st) as [sk|] eqn:Hsock; [|assumption].
  pose proof (Hm sk sk (socket_grown_refl sk)) as Hsk.
  destruct (m sk) as [sk' r]. simpl in *.
  eapply data_grown_trans; [eassumption|].
  eapply put_socket_grown; eassumption.
Qed.

Lemma on_material_grown (name : string) (f : material -> material)
    (st0 : bpy_data) :
  (forall m, mat_node_tree (f m) = mat_node_tree m) ->
  keeps (data_grown name st0) (on_material name f).
Proof.
  intros Hf st Hst. eapply data_grown_trans; [eassumption|].
  split; [reflexivity|]. split; [reflexivity|].
  intros key. simpl. destruct (decide (key = name)) as [->|Hne].
  - rewrite lookup_alter_eq. destruct (materials st !! name) as [m|];
      [|exact I].
    simpl. split; [|congruence].
    unfold material_grown. rewrite Hf.
    apply (material_grown_refl m).
  - rewrite lookup_alter_ne by congruence.
    destruct (materials st !! key); [|exact I].
    split; [apply material_grown_refl | reflexivity].
Qed.

(** Walks host code along its binds and case distinctions, closing the
    leaves with [leaf]. *)
Ltac walk_host leaf :=
  cbv zeta;
  repeat first
    [ apply keeps_ret
    | apply keeps_lift
    | apply keeps_get
    | leaf
    | apply keeps_bind; [|intros ?]
    | match goal with
      | |- keeps _ (match ?x with _ => _ end) => destruct x
      | |- keeps _ (let '(_, _) := ?x in _) => destruct x
      end ].

Lemma keyframe_principled_grown (name : string)
    (base_keyframes emission_keyframes : option (list (pyval * pyval)))
    (emission_strength : option (pyval * list pyval))
    (viewport_color specular_value specular_color : option pyval) :
  extends (data_grown name)
    (keyframe_principled name base_keyframes emission_keyframes
       emission_strength viewport_color specular_value specular_color).
Proof.
  apply extends_keeps; [|apply data_grown_refl].
  intros st0. unfold keyframe_principled.
  walk_host ltac:(first
    [ apply on_material_grown; reflexivity
    | apply on_socket_grown; intros ?;
      first [ apply keyframe_color_socket_grown
            | apply keyframe_value_socket_grown
            | apply set_default_value_grown ] ]).
Qed.

(** ** [keyframe_principled] *)

(** X7: [keyframe_principled] works on the named material only: the
    actions, the F-curves and every other material are as before, no
    material is added or removed, whatever the arguments and whether or
    not the call raises. *)
Theorem keyframe_principled_frame (name : string) (st : bpy_data)
    (base_keyframes emission_keyframes : option (list (pyval * pyval)))
    (emission_strength : option (pyval * list pyval))
    (viewport_color specular_value specular_color : option pyval) :
  let st' := (keyframe_principled name base_keyframes emission_keyframes
                emission_strength viewport_color specular_value
                specular_color st).1 in
  actions st' = actions st /\ fcurves st' = fcurves st
  /\ (forall key, key ≠ name -> materials st' !! key = materials st !! key)
  /\ (forall key, materials st' !! key = None <-> materials st !! key = None).
Proof.
  intros st'.
  destruct (keyframe_principled_grown name base_keyframes emission_keyframes
              emission_strength viewport_color specular_value specular_color
              st) as (Hact & Hcurves & Hmat).
  fold st' in Hact, Hcurves, Hmat.
  split; [assumption|]. split; [assumption|]. split.
  - intros key Hne. specialize (Hmat key).
    destruct (materials st !! key), (materials st' !! key);
      try contradiction; [|reflexivity].
    destruct Hmat as [_ Heq]. rewrite (Heq Hne). reflexivity.
  - intros key. specialize (Hmat key).
    destruct (materials st !! key), (materials st' !! key);
      try contradiction; split; congruence.
Qed.

(** X8: in the named material [keyframe_principled] keeps the shape of
    the principled node: the same number of input sockets, each with its
    name and type, and each with the keys it had before in front of any
    new ones; no key is removed or rewritten. *)
Theorem keyframe_principled_sockets (name : string) (st : bpy_data)
    (base_keyframes emission_keyframes : option (list (pyval * pyval)))
    (emission_strength : option (pyval * list pyval))
    (viewport_color specular_value specular_color : option pyval)
    (mat : material) (bsdf : node) :
  materials st !! name = Some mat ->
  _get_principled_node mat = Some bsdf ->
  let st' := (keyframe_principled name base_keyframes emission_keyframes
                emission_strength viewport_color specular_value
                specular_color st).1 in
  exists mat' bsdf',
    materials st' !! name = Some mat'
    /\ _get_principled_node mat' = Some bsdf'
    /\ length (inputs bsdf') = length (inputs bsdf)
    /\ forall i sk, inputs bsdf !! i = Some sk ->
         exists sk', inputs bsdf' !! i = Some sk'
                     /\ sock_name sk' = sock_name sk
                     /\ sock_type sk' = sock_type sk
                     /\ sock_keys sk `prefix_of` sock_keys sk'.
Proof.
  intros Hmat Hbsdf st'.
  destruct (keyframe_principled_grown name base_keyframes emission_keyframes
              emission_strength viewport_color specular_value specular_color
              st) as (_ & _ & Hgrown).
  fold st' in Hgrown. specialize (Hgrown name). rewrite Hmat in Hgrown.
  destruct (materials st' !! name) as [mat'|]; [|contradiction].
  destruct Hgrown as [Hgrown _].
  unfold material_grown in Hgrown. unfold _get_principled_node in *.
  destruct (mat_node_tree mat) as [nt|]; [|discriminate].
  destruct (mat_node_tree mat') as [nt'|] eqn:Hnt'; [|contradiction].
  specialize (Hgrown principled). rewrite Hbsdf in Hgrown.
  destruct (nodes nt' !! principled) as [bsdf'|] eqn:Hbsdf';
    [|contradiction].
  destruct Hgrown as [Hnode _]. exists mat', bsdf'.
  split; [reflexivity|]. split; [rewrite Hnt'; assumption|]. split.
  - symmetry. eapply Forall2_length. exact Hnode.
  - intros i sk Hsk.
    destruct (Forall2_lookup_l _ _ _ _ _ Hnode Hsk) as (sk' & Hsk' & Hg).
    exists sk'. split; [assumption|]. exact Hg.
Qed.

Lemma keyframe_principled_sockets_witness :
  exists mat' bsdf',
    materials (keyframe_principled "Material.001"
                 (Some [(PInt 1, PList [PFloat 1.0; PFloat 0.0; PFloat 0.0])])
                 None None None None None sample_data).1 !! "Material.001"
    = Some mat'
    /\ _get_principled_node mat' = Some bsdf'
    /\ length (inputs bsdf') = 4%nat.
Proof.
  destruct (keyframe_principled_sockets "Material.001" sample_data
              (Some [(PInt 1, PList [PFloat 1.0; PFloat 0.0; PFloat 0.0])])
              None None None None None sample_material
              {| inputs := [
                   sample_socket "Base Color" "RGBA"
                     (PList [PFloat 0.8; PFloat 0.8; PFloat 0.8; PFloat 1.0]);
                   sample_socket "Metallic" "VALUE" (PFloat 0.0);
                   sample_socket "Roughness" "VALUE" (PFloat 0.5);
                   sample_socket "IOR" "VALUE" (PFloat 1.5) ] |}
              eq_refl eq_refl) as (mat' & bsdf' & H1 & H2 & H3 & _).
  exists mat', bsdf'. auto.
Defined.

Lemma keyframe_principled_frame_witness :
  materials (keyframe_principled "Material.001" None None None
               (Some (PList [PFloat 0.5; PFloat 0.5; PFloat 0.5])) None None
               sample_data).1 !! "Material.title"
  = materials sample_data !! "Material.title".
Proof.
  pose proof (keyframe_principled_frame "Material.001" sample_data
                None None None
                (Some (PList [PFloat 0.5; PFloat 0.5; PFloat 0.5])) None None)
    as (_ & _ & Hother & _).
  apply Hother. intros Heq. discriminate Heq.
Defined.

Lemma keeps_apply {S A : Type} (I : S -> Prop) (m : host S A) (s : S) :
  keeps I m -> I s -> I (m s).1.
Proof. intros Hm. apply Hm. Qed.

Lemma on_socket_keeps_colors {A : Type} (name : string) (i : nat)
    (m : host socket A) (f : material -> pyval) (v : pyval) :
  (forall mat tree, f {| diffuse_color := diffuse_color mat;
                         specular_color := specular_color mat;
                         mat_node_tree := tree |} = f mat) ->
  keeps (fun st => f <$> materials st !! name = Some v) (on_socket name i m).
Proof.
  intros Hf st Hst. unfold on_socket, zoom.
  destruct (socket_of name i st) as [sk|]; [|assumption].
  destruct (m sk) as [sk' r]. cbn [fst].
  rewrite put_socket_lookup. destruct (decide (name = name)); [|congruence].
  destruct (materials st !! name) as [mat|]; [|discriminate].
  simpl in *. rewrite Hf. assumption.
Qed.

Lemma on_material_sets (name : string) (f : material -> material)
    (g : material -> pyval) (v : pyval) (st : bpy_data) (mat : material) :
  materials st !! name = Some mat -> g (f mat) = v ->
  g <$> materials (on_material name f st).1 !! name = Some v.
Proof.
  intros Hmat Hg. simpl. rewrite lookup_alter_eq, Hmat. simpl. congruence.
Qed.

Lemma on_material_keeps (name : string) (f : material -> material)
    (g : material -> pyval) (v : pyval) :
  (forall mat, g (f mat) = g mat) ->
  keeps (fun st => g <$> materials st !! name = Some v) (on_material name f).
Proof.
  intros Hg st Hst. simpl. rewrite lookup_alter_eq.
  destruct (materials st !! name) as [mat|]; [|discriminate].
  simpl in *. rewrite Hg. assumption.
Qed.

(** X9: a viewport color with its three components is written to the
    material's [diffuse_color] with an alpha, and stays there whatever
    the rest of the call does, even when a later step raises. *)
Theorem keyframe_principled_viewport_color (name : string) (st : bpy_data)
    (base_keyframes emission_keyframes : option (list (pyval * pyval)))
    (emission_strength : option (pyval * list pyval))
    (specular_value specular_color : option pyval)
    (mat : material) (color rgba : pyval) :
  materials st !! name = Some mat ->
  ensure_rgba color = Ok rgba ->
  diffuse_color <$>
    materials (keyframe_principled name base_keyframes emission_keyframes
                 emission_strength (Some color) specular_value
                 specular_color st).1 !! name
  = Some rgba.
Proof.
  intros Hmat Hrgba. unfold keyframe_principled.
  rewrite host_bind_run. unfold get_state at 1. rewrite Hmat.
  rewrite host_bind_run. rewrite (host_bind_run (lift _)).
  unfold lift at 1. rewrite Hrgba.
  pose proof (on_material_sets name (set_diffuse_color rgba) diffuse_color
                rgba st mat Hmat eq_refl) as Hset.
  destruct (on_material name (set_diffuse_color rgba) st) as [st1 [[]|e]];
    [|exact Hset].
  simpl in Hset.
  apply (keeps_apply
           (fun s => diffuse_color <$> materials s !! name = Some rgba));
    [|exact Hset].
  walk_host ltac:(first
    [ apply on_material_keeps; reflexivity
    | apply on_socket_keeps_colors; reflexivity ]).
Qed.

Lemma keyframe_principled_viewport_color_witness :
  diffuse_color <$>
    materials (keyframe_principled "Material.001" None None None
                 (Some (PList [PFloat 0.5; PFloat 0.5; PFloat 0.5]))
                 None None sample_data).1 !! "Material.001"
  = Some (PList [PFloat 0.5; PFloat 0.5; PFloat 0.5; PFloat 1.0]).
Proof.
  apply (keyframe_principled_viewport_color "Material.001" sample_data
           None None None None None sample_material);
    reflexivity.
Defined.

(** X10: an invalid viewport color stops the call before anything is
    written: the exception of [ensure_rgba] comes out and the state is
    the one before. *)
Theorem keyframe_principled_bad_viewport (name : string) (st : bpy_data)
    (base_keyframes emission_keyframes : option (list (pyval * pyval)))
    (emission_strength : option (pyval * list pyval))
    (specular_value specular_color : option pyval)
    (mat : material) (color : pyval) :
  materials st !! name = Some mat ->
  rgba_raises color = true ->
  keyframe_principled name base_keyframes emission_keyframes
    emission_strength (Some color) specular_value specular_color st
  = (st, Raise (rgba_exception color)).
Proof.
  intros Hmat Hbad. unfold keyframe_principled.
  rewrite host_bind_run. unfold get_state at 1. rewrite Hmat.
  rewrite host_bind_run. rewrite (host_bind_run (lift _)).
  unfold lift at 1. rewrite (ensure_rgba_raise_exn color Hbad).
  reflexivity.
Qed.

Lemma keyframe_principled_bad_viewport_witness :
  keyframe_principled "Material.001" None None None
    (Some (PFloat 0.5)) None None sample_data
  = (sample_data, Raise TypeError).
Proof.
  apply (keyframe_principled_bad_viewport "Material.001" sample_data
           None None None None None sample_material (PFloat 0.5));
    reflexivity.
Defined.

Lemma slice3_of_rgba (l : list pyval) :
  (3 <= length l)%nat ->
  exists rgba, ensure_rgba (PList l) = Ok rgba
               /\ py_slice3 rgba = Ok (PList (take 3 l)).
Proof.
  intros Hl. destruct l as [|a [|b [|c [|d l]]]]; simpl in Hl; try lia.
  - eexists. split; reflexivity.
  - eexists. split; reflexivity.
Qed.

Ltac run_specular Hmat1 :=
  match goal with
  | Hspec : ensure_rgba (PList ?l) = Ok ?rgba,
    Hslice : py_slice3 ?rgba = Ok ?rgb |- _ =>
      rewrite host_bind_run; rewrite (host_bind_run (lift _));
      unfold lift at 1; rewrite Hspec;
      rewrite (host_bind_run (lift _)); unfold lift at 1; rewrite Hslice;
      let Hset := fresh "Hset" in
      pose proof (on_material_sets _ (set_specular_color rgb) specular_color
                    rgb _ _ Hmat1 eq_refl) as Hset;
      match goal with
      | |- context [on_material ?n ?f ?s] =>
          destruct (on_material n f s) as [? [[]|?]]; [|exact Hset]
      end;
      simpl in Hset;
      apply (keeps_apply
               (fun s => specular_color <$> materials s !! _ = Some rgb));
      [|exact Hset];
      walk_host ltac:(apply on_socket_keeps_colors; reflexivity)
  end.

(** X11: a specular color given as a list of at least three components
    is written to the material's [specular_color] as its first three
    components only, whenever the viewport color, if there is one, is
    valid; it stays there whatever the rest of the call does. *)
Theorem keyframe_principled_specular_rgb (name : string) (st : bpy_data)
    (base_keyframes emission_keyframes : option (list (pyval * pyval)))
    (emission_strength : option (pyval * list pyval))
    (viewport_color specular_value : option pyval)
    (mat : material) (l : list pyval) :
  materials st !! name = Some mat ->
  from_option rgba_raises false viewport_color = false ->
  (3 <= length l)%nat ->
  specular_color <$>
    materials (keyframe_principled name base_keyframes emission_keyframes
                 emission_strength viewport_color specular_value
                 (Some (PList l)) st).1 !! name
  = Some (PList (take 3 l)).
Proof.
  intros Hmat Hview Hl.
  destruct (slice3_of_rgba l Hl) as (rgba & Hspec & Hslice).
  unfold keyframe_principled.
  rewrite host_bind_run. unfold get_state at 1. rewrite Hmat.
  rewrite host_bind_run.
  destruct viewport_color as [color|]; simpl in Hview.
  - destruct (ensure_rgba_ok color Hview) as (rgba1 & n & Hrgba1 & _).
    rewrite (host_bind_run (lift _)). unfold lift at 1. rewrite Hrgba1.
    assert (Hmat1 : materials (on_material name (set_diffuse_color rgba1)
                                 st).1 !! name
                    = Some (set_diffuse_color rgba1 mat)).
    { simpl. rewrite lookup_alter_eq, Hmat. reflexivity. }
    destruct (on_material name (set_diffuse_color rgba1) st)
      as [st1 [[]|e]] eqn:Hrun; [|discriminate Hrun].
    simpl in Hmat1. run_specular Hmat1.
  - change ((mret tt : host bpy_data unit) st) with (st, Ok tt : pyres unit).
    cbv iota beta. run_specular Hmat.
Qed.

Lemma keyframe_principled_specular_rgb_witness :
  specular_color <$>
    materials (keyframe_principled "Material.001" None None None None None
                 (Some (PList [PFloat 0.1; PFloat 0.2; PFloat 0.3; PFloat 0.4]))
                 sample_data).1 !! "Material.001"
  = Some (PList [PFloat 0.1; PFloat 0.2; PFloat 0.3]).
Proof.
  apply (keyframe_principled_specular_rgb "Material.001" sample_data
           None None None None None sample_material
           [PFloat 0.1; PFloat 0.2; PFloat 0.3; PFloat 0.4]);
    [reflexivity | reflexivity | simpl; lia].
Defined.

(** ** What [keyframe_principled] returns *)

Lemma returns_ret {S A : Type} (P : A -> Prop) (a : A) :
  P a -> returns P (mret a : host S A).
Proof. intros Ha s b [= <-]. assumption. Qed.

Lemma returns_apply {S A : Type} (P : A -> Prop) (m : host S A) (s : S)
    (a : A) :
  returns P m -> (m s).2 = Ok a -> P a.
Proof. intros Hm. apply Hm. Qed.

(** X12: when it returns, [keyframe_principled] returns the material if
    there is one of that name and [None] if there is none. *)
Theorem keyframe_principled_result (name : string) (st : bpy_data)
    (base_keyframes emission_keyframes : option (list (pyval * pyval)))
    (emission_strength : option (pyval * list pyval))
    (viewport_color specular_value specular_color : option pyval)
    (r : option string) :
  (keyframe_principled name base_keyframes emission_keyframes
     emission_strength viewport_color specular_value specular_color st).2
  = Ok r ->
  r = match materials st !! name with
      | Some _ => Some name
      | None => None
      end.
Proof.
  unfold keyframe_principled.
  rewrite host_bind_run. unfold get_state at 1.
  destruct (materials st !! name) as [mat|]; [|intros [= <-]; reflexivity].
  apply (returns_apply (fun r => r = Some name)).
  cbv zeta.
  repeat first
    [ apply returns_ret; reflexivity
    | apply returns_bind; intros ?
    | match goal with
      | |- returns _ (match ?x with _ => _ end) => destruct x
      end ].
Qed.

Lemma keyframe_principled_result_witness :
  Some "Material.001" = match materials sample_data !! "Material.001" with
                        | Some _ => Some "Material.001"
                        | None => None
                        end.
Proof.
  apply (keyframe_principled_result "Material.001" sample_data
           None None None None (Some (PFloat 1.45)) None).
  reflexivity.
Defined.

(** ** The index of curves, again *)

Lemma index_curves_app (h : gmap fref fcurve) (xs ys : list fref)
    (acc : gmap Z fref) :
  index_curves h (xs ++ ys) acc = index_curves h xs acc ≫= index_curves h ys.
Proof.
  revert acc. induction xs as [|r xs IH]; intros acc; [reflexivity|].
  simpl. destruct (h !! r); [apply IH | reflexivity].
Qed.

Lemma index_curves_keeps (h : gmap fref fcurve) (curves : list fref)
    (acc idx : gmap Z fref) (i : Z) (r : fref) :
  index_curves h curves acc = Ok idx -> acc !! i = Some r ->
  (forall r' fc', r' ∈ curves -> h !! r' = Some fc' -> array_index fc' ≠ i) ->
  idx !! i = Some r.
Proof.
  revert acc. induction curves as [|r0 rest IH]; intros acc Hidx Hacc Hother.
  - injection Hidx as <-. assumption.
  - simpl in Hidx. destruct (h !! r0) as [fc0|] eqn:H0; [|discriminate].
    apply (IH _ Hidx).
    + rewrite lookup_insert_ne; [assumption|].
      apply (Hother r0 fc0); [left | assumption].
    + intros r' fc' Hin. apply Hother. right. assumption.
Qed.

Lemma index_curves_total (h : gmap fref fcurve) (curves : list fref)
    (acc : gmap Z fref) :
  Forall (fun r => is_Some (h !! r)) curves ->
  exists idx, index_curves h curves acc = Ok idx.
Proof.
  intros Hall. revert acc.
  induction Hall as [|r rest [fc Hr] _ IH]; intros acc; simpl; [eauto|].
  rewrite Hr. apply IH.
Qed.

(** X13: when several curves of the collection share an array index, the
    index built by [update_color_fcurves] holds the last of them. *)
Theorem index_curves_last_wins (h : gmap fref fcurve)
    (before after : list fref) (r : fref) (fc : fcurve)
    (by_index : gmap Z fref) :
  index_curves h (before ++ r :: after) ∅ = Ok by_index ->
  h !! r = Some fc ->
  (forall r' fc', r' ∈ after -> h !! r' = Some fc' ->
                  array_index fc' ≠ array_index fc) ->
  by_index !! array_index fc = Some r.
Proof.
  intros Hidx Hr Hafter. rewrite index_curves_app in Hidx.
  destruct (index_curves h before ∅) as [acc|e]; [|discriminate].
  simpl in Hidx. rewrite Hr in Hidx.
  apply (index_curves_keeps _ _ _ _ _ _ Hidx); [|assumption].
  apply lookup_insert_eq.
Qed.

Lemma index_curves_last_wins_witness :
  exists by_index,
    index_curves sample_curves ([20] ++ 10 :: [11; 12; 13])%nat ∅
    = Ok by_index
    /\ by_index !! 0 = Some 10%nat.
Proof.
  destruct (index_curves_total sample_curves
              ([20] ++ 10 :: [11; 12; 13])%nat ∅) as [by_index Hidx].
  { repeat constructor; eexists; reflexivity. }
  exists by_index. split; [exact Hidx|].
  apply (index_curves_last_wins sample_curves [20%nat] [11; 12; 13]%nat
           10%nat
           {| data_path := "color"; array_index := 0;
              keyframe_points := [sample_point 1 0; sample_point 50 0] |}
           by_index Hidx eq_refl).
  intros r' fc' Hin Hr'.
  repeat (apply elem_of_cons in Hin as [->|Hin];
          [vm_compute in Hr'; injection Hr' as <-; discriminate|]).
  apply elem_of_nil in Hin. contradiction.
Defined.

(** ** What [update_color_fcurves] writes *)

Lemma for_each_indexed {S A : Type} (I : nat -> S -> Prop) (xs : list A)
    (body : A -> host S unit) :
  (forall k x s, xs !! k = Some x -> I k s ->
     I (Datatypes.S k) (body x s).1 /\ (body x s).2 = Ok tt) ->
  forall s, I O s ->
    I (length xs) (for_each xs body s).1 /\ (for_each xs body s).2 = Ok tt.
Proof.
  revert I. induction xs as [|x rest IH]; intros I Hbody s Hs.
  - split; [assumption | reflexivity].
  - cbn [for_each length]. rewrite host_bind_run.
    destruct (Hbody O x s eq_refl Hs) as [Hs' Hok].
    destruct (body x s) as [s' r]. simpl in Hs', Hok. subst r.
    apply (IH (fun k => I (Datatypes.S k))); [|assumption].
    intros k y t Hy. apply (Hbody (Datatypes.S k)). assumption.
Qed.

Lemma getitem_has_rgb (color : pyval) (i : nat) :
  has_rgb color = true -> (i < 3)%nat -> exists v, py_getitem color i = Ok v.
Proof.
  unfold has_rgb. intros Hc Hi.
  destruct color as [| | | |s|l|]; try discriminate; simpl in Hc;
    apply negb_true_iff, Nat.ltb_ge in Hc.
  - destruct (string_get_lt s i) as [c Hget]; [lia|].
    simpl. rewrite Hget. eauto.
  - destruct (lookup_lt_is_Some_2 l i) as [x Hx]; [lia|].
    simpl. rewrite Hx. eauto.
Qed.

Lemma update_channel_ok (n : nat) (touched : fref -> Prop)
    (h0 h : gmap fref fcurve) (by_index : gmap Z fref)
    (point i : nat) (frame color : pyval) :
  (forall j r, by_index !! j = Some r ->
     touched r /\ exists fc, h0 !! r = Some fc /\ array_index fc = j) ->
  store_kept n touched h0 h ->
  has_rgb color = true -> (i < 3)%nat ->
  (update_channel by_index point frame color i h).2 = Ok tt.
Proof.
  intros Hindex Hkept Hcolor Hi. unfold update_channel.
  destruct (by_index !! Z.of_nat i) as [r|] eqn:Hr; [|reflexivity].
  destruct (Hindex _ _ Hr) as (_ & fc0 & Hfc0 & _).
  pose proof (Hkept r) as Hkr. rewrite Hfc0 in Hkr.
  destruct Hkr as (fc & Hfc & _).
  rewrite host_bind_run. unfold deref. rewrite Hfc.
  destruct (length (keyframe_points fc) <=? point)%nat; [reflexivity|].
  destruct (getitem_has_rgb color i Hcolor Hi) as [v Hv].
  rewrite host_bind_run. unfold lift. rewrite Hv. reflexivity.
Qed.

Lemma update_channel_other (by_index : gmap Z fref) (r : fref)
    (p point i : nat) (frame color : pyval) (x : keyframe_point)
    (h : gmap fref fcurve) :
  point ≠ p \/ by_index !! Z.of_nat i ≠ Some r ->
  point_is r p x h ->
  point_is r p x (update_channel by_index point frame color i h).1.
Proof.
  intros Hother (fc & Hfc & Hx). unfold update_channel.
  destruct (by_index !! Z.of_nat i) as [r'|] eqn:Hr'; [|exists fc; auto].
  rewrite host_bind_run. unfold deref.
  destruct (h !! r') as [fc'|] eqn:Hfc'; [|exists fc; auto].
  destruct (length (keyframe_points fc') <=? point)%nat; [exists fc; auto|].
  rewrite host_bind_run. unfold lift.
  destruct (py_getitem color i) as [v|e]; [|exists fc; auto].
  unfold modify, point_is. cbn [fst].
  destruct (decide (r' = r)) as [->|Hne].
  - destruct Hother as [Hp | Hr]; [|congruence].
    rewrite lookup_alter_eq, Hfc. cbn [fmap option_fmap option_map].
    eexists. split; [reflexivity|].
    cbn [set_keyframe keyframe_points].
    rewrite list_lookup_alter_ne by congruence. assumption.
  - rewrite lookup_alter_ne by congruence. exists fc. auto.
Qed.

Lemma update_channel_hit (by_index : gmap Z fref) (r : fref)
    (p i : nat) (frame color v : pyval) (x : keyframe_point)
    (h : gmap fref fcurve) :
  by_index !! Z.of_nat i = Some r -> py_getitem color i = Ok v ->
  point_is r p x h ->
  point_is r p (write_point frame v x)
    (update_channel by_index p frame color i h).1.
Proof.
  intros Hr Hv (fc & Hfc & Hx). unfold update_channel. rewrite Hr.
  rewrite host_bind_run. unfold deref. rewrite Hfc.
  pose proof (lookup_lt_Some _ _ _ Hx) as Hlt.
  destruct (length (keyframe_points fc) <=? p)%nat eqn:Hle;
    [apply Nat.leb_le in Hle; lia|].
  rewrite host_bind_run. unfold lift. rewrite Hv.
  unfold modify, point_is. cbn [fst].
  rewrite lookup_alter_eq, Hfc. cbn [fmap option_fmap option_map].
  eexists. split; [reflexivity|].
  cbn [set_keyframe keyframe_points].
  rewrite list_lookup_alter_eq, Hx. reflexivity.
Qed.

(** The loops of [update_color_fcurves] on valid colors: they run to the
    end, and the point [p] of the curve selected for channel [i] ends as
    the keyframe [p] wrote it. *)
Lemma color_loop_writes (h : gmap fref fcurve) (by_index : gmap Z fref)
    (touched : fref -> Prop) (keyframes : list (pyval * pyval))
    (r : fref) (p i : nat) (frame color v : pyval) (x : keyframe_point) :
  (forall j r, by_index !! j = Some r ->
     touched r /\ exists fc, h !! r = Some fc /\ array_index fc = j) ->
  Forall (fun kf => has_rgb kf.2 = true) keyframes ->
  by_index !! Z.of_nat i = Some r -> (i < 3)%nat ->
  keyframes !! p = Some (frame, color) -> py_getitem color i = Ok v ->
  point_is r p x h ->
  let run := for_each (enumerate keyframes) (fun '(point, (frame, color)) =>
       for_each (seq 0 3) (update_channel by_index point frame color)) h in
  run.2 = Ok tt /\ point_is r p (write_point frame v x) run.1.
Proof.
  intros Hindex Hvalid Hr Hi Hkf Hv Hx run.
  set (n := length keyframes).
  assert (Hdistinct : forall j, j ≠ i -> by_index !! Z.of_nat j ≠ Some r).
  { intros j Hj Hrj.
    destruct (Hindex _ _ Hr) as (_ & fc1 & Hfc1 & Ha1).
    destruct (Hindex _ _ Hrj) as (_ & fc2 & Hfc2 & Ha2).
    apply Hj. apply Nat2Z.inj. congruence. }
  pose proof (for_each_indexed
    (fun k s => store_kept n touched h s
                /\ point_is r p (if decide (k <= p)%nat then x
                                 else write_point frame v x) s)
    (enumerate keyframes)
    (fun '(point, (frame, color)) =>
       for_each (seq 0 3) (update_channel by_index point frame color)))
    as Hloop.
  destruct (Hloop) with (s := h) as [[_ Hpoint] Hok].
  - intros k [point [frame' color']] s Hk [Hkept Hpt].
    unfold enumerate in Hk. rewrite list_lookup_imap in Hk.
    destruct (keyframes !! k) as [kf|] eqn:Hkk; [|discriminate].
    simpl in Hk. injection Hk as ? ?; subst point kf.
    assert (Hcolor : has_rgb color' = true).
    { rewrite Forall_lookup in Hvalid. apply (Hvalid k _ Hkk). }
    assert (Hkn : (k < n)%nat) by (eapply lookup_lt_Some; eassumption).
    pose proof (for_each_indexed
      (fun j s => store_kept n touched h s
                  /\ point_is r p
                       (if decide (k < p \/ (k = p /\ j <= i))%nat then x
                        else write_point frame v x) s)
      (seq 0 3) (update_channel by_index k frame' color')) as Hinner.
    destruct Hinner with (s := s) as [[Hkept' Hpt'] Hok'].
    + intros j c t Hj [Hkept_t Hpt_t].
      apply lookup_seq in Hj as [-> Hj3]. simpl.
      split; [split|].
      * apply update_channel_kept; assumption.
      * destruct (decide (k = p /\ j = i)) as [[-> ->]|Hne].
        -- rewrite decide_True in Hpt_t by lia.
           rewrite decide_False by lia.
           replace frame' with frame by congruence.
           replace color' with color in * by congruence.
           apply update_channel_hit; assumption.
        -- assert (Hsame :
             (if decide (k < p \/ k = p /\ S j <= i)%nat then x
              else write_point frame v x)
             = (if decide (k < p \/ k = p /\ j <= i)%nat then x
                else write_point frame v x)).
           { repeat case_decide; try reflexivity; lia. }
           rewrite Hsame. apply update_channel_other; [|assumption].
           destruct (decide (k = p)) as [->|Hkp]; [|left; assumption].
           right. apply Hdistinct. intros ->. apply Hne. auto.
      * eapply update_channel_ok; eassumption.
    + split; [assumption|].
      replace (if decide (k < p \/ k = p /\ 0 <= i)%nat then x
               else write_point frame v x)
        with (if decide (k <= p)%nat then x else write_point frame v x);
        [assumption|].
      repeat case_decide; try reflexivity; lia.
    + split; [|assumption]. split; [assumption|].
      simpl in Hpt'.
      replace (if decide (S k <= p)%nat then x else write_point frame v x)
        with (if decide (k < p \/ k = p /\ 3 <= i)%nat then x
              else write_point frame v x);
        [assumption|].
      repeat case_decide; try reflexivity; lia.
  - split; [apply store_kept_refl|].
    rewrite decide_True by lia. assumption.
  - split; [assumption|].
    unfold enumerate in Hpoint. rewrite length_imap in Hpoint.
    rewrite decide_False in Hpoint; [assumption|].
    apply lookup_lt_Some in Hkf. lia.
Qed.

Lemma color_loop_ok (h : gmap fref fcurve) (by_index : gmap Z fref)
    (touched : fref -> Prop) (keyframes : list (pyval * pyval)) :
  (forall j r, by_index !! j = Some r ->
     touched r /\ exists fc, h !! r = Some fc /\ array_index fc = j) ->
  Forall (fun kf => has_rgb kf.2 = true) keyframes ->
  (for_each (enumerate keyframes) (fun '(point, (frame, color)) =>
     for_each (seq 0 3) (update_channel by_index point frame color)) h).2
  = Ok tt.
Proof.
  intros Hindex Hvalid. set (n := length keyframes).
  apply (for_each_indexed (fun _ s => store_kept n touched h s));
    [|apply store_kept_refl].
  intros k [point [frame color]] s Hk Hkept.
  unfold enumerate in Hk. rewrite list_lookup_imap in Hk.
  destruct (keyframes !! k) as [kf|] eqn:Hkk; [|discriminate].
  simpl in Hk. injection Hk as ? ?; subst point kf.
  assert (Hcolor : has_rgb color = true).
  { rewrite Forall_lookup in Hvalid. apply (Hvalid k _ Hkk). }
  assert (Hkn : (k < n)%nat) by (eapply lookup_lt_Some; eassumption).
  apply (for_each_indexed (fun _ s => store_kept n touched h s));
    [|assumption].
  intros j c t Hj Hkept_t. apply lookup_seq in Hj as [-> Hj3]. simpl.
  split.
  - apply update_channel_kept; assumption.
  - eapply update_channel_ok; eassumption.
Qed.

Lemma update_color_fcurves_run (st : bpy_data) (name : string) (a : action)
    (curves : list fref) (by_index : gmap Z fref)
    (keyframes : list (pyval * pyval)) :
  actions st !! name = Some a ->
  get_action_fcurves a = Ok curves ->
  index_curves (fcurves st) curves ∅ = Ok by_index ->
  update_color_fcurves name keyframes st =
  let loop := for_each (enumerate keyframes) (fun '(point, (frame, color)) =>
       for_each (seq 0 3) (update_channel by_index point frame color))
       (fcurves st) in
  (set_fcurves loop.1 st,
   match loop.2 with
   | Ok _ => Ok (Some name)
   | Raise e => Raise e
   end).
Proof.
  intros Hact Hcurves Hidx. unfold update_color_fcurves.
  rewrite host_bind_run. unfold get_state at 1. rewrite Hact.
  rewrite host_bind_run. unfold lift at 1. rewrite Hcurves.
  rewrite host_bind_run. unfold lift at 1. rewrite Hidx.
  rewrite host_bind_run. unfold zoom. cbv zeta.
  destruct (for_each _ _ (fcurves st)) as [h' [[]|e]]; reflexivity.
Qed.

Lemma index_curves_touch (h : gmap fref fcurve) (curves : list fref)
    (by_index : gmap Z fref) :
  index_curves h curves ∅ = Ok by_index ->
  forall j r, by_index !! j = Some r ->
    r ∈ curves /\ exists fc, h !! r = Some fc /\ array_index fc = j.
Proof.
  intros Hidx j r Hj.
  destruct (index_curves_sound _ _ _ _ Hidx j r Hj) as [Hempty|?];
    [|assumption].
  rewrite lookup_empty in Hempty. discriminate.
Qed.

(** X14: [update_color_fcurves] returns the action, without raising,
    whenever the action exists, its curves are found and alive, and every
    keyframe color is a sequence of at least three components. *)
Theorem update_color_fcurves_succeeds (st : bpy_data) (name : string)
    (a : action) (curves : list fref) (keyframes : list (pyval * pyval)) :
  actions st !! name = Some a ->
  get_action_fcurves a = Ok curves ->
  Forall (fun r => is_Some (fcurves st !! r)) curves ->
  Forall (fun kf => has_rgb kf.2 = true) keyframes ->
  (update_color_fcurves name keyframes st).2 = Ok (Some name).
Proof.
  intros Hact Hcurves Halive Hvalid.
  destruct (index_curves_total (fcurves st) curves ∅ Halive)
    as [by_index Hidx].
  rewrite (update_color_fcurves_run st name a curves by_index keyframes)
    by assumption.
  cbv zeta. cbn [snd].
  rewrite (color_loop_ok (fcurves st) by_index (fun r => r ∈ curves));
    [reflexivity | | assumption].
  apply index_curves_touch. assumption.
Qed.

Lemma update_color_fcurves_succeeds_witness :
  (update_color_fcurves "LayeredAction"
     [(PInt 1, PList [PFloat 1.0; PFloat 0.5; PFloat 0.0]);
      (PInt 50, PStr "rgb")] sample_data).2
  = Ok (Some "LayeredAction").
Proof.
  apply (update_color_fcurves_succeeds sample_data "LayeredAction"
           layered_action [10; 11; 12]%nat);
    [reflexivity | reflexivity | | repeat constructor].
  repeat constructor; eexists; reflexivity.
Defined.

(** X15: on valid colors the update does what it is for: the curve that
    the index holds for channel [i] gets, at every position [p] that both
    it and the keyframes have, the frame of keyframe [p] and component
    [i] of its color as coordinate, and that component as the height of
    both handles. *)
Theorem update_color_fcurves_writes (st : bpy_data) (name : string)
    (a : action) (curves : list fref) (by_index : gmap Z fref)
    (keyframes : list (pyval * pyval)) (r : fref) (fc : fcurve)
    (p i : nat) (frame color v : pyval) (kp : keyframe_point) :
  actions st !! name = Some a ->
  get_action_fcurves a = Ok curves ->
  index_curves (fcurves st) curves ∅ = Ok by_index ->
  Forall (fun kf => has_rgb kf.2 = true) keyframes ->
  by_index !! Z.of_nat i = Some r -> (i < 3)%nat ->
  fcurves st !! r = Some fc -> keyframe_points fc !! p = Some kp ->
  keyframes !! p = Some (frame, color) -> py_getitem color i = Ok v ->
  exists fc',
    fcurves (update_color_fcurves name keyframes st).1 !! r = Some fc'
    /\ keyframe_points fc' !! p =
       Some {| co := (frame, v);
               handle_left := {| vx := vx (handle_left kp); vy := v |};
               handle_right := {| vx := vx (handle_right kp); vy := v |} |}.
Proof.
  intros Hact Hcurves Hidx Hvalid Hr Hi Hfc Hkp Hkf Hv.
  rewrite (update_color_fcurves_run st name a curves by_index keyframes)
    by assumption.
  cbv zeta. cbn [fst fcurves set_fcurves].
  assert (Hpt : point_is r p kp (fcurves st)) by (exists fc; auto).
  destruct (color_loop_writes (fcurves st) by_index (fun r => r ∈ curves)
              keyframes r p i frame color v kp
              (index_curves_touch _ _ _ Hidx) Hvalid Hr Hi Hkf Hv Hpt)
    as [_ Hpoint].
  exact Hpoint.
Qed.

Lemma update_color_fcurves_writes_witness :
  exists fc',
    fcurves (update_color_fcurves "LayeredAction"
               [(PInt 1, PList [PFloat 1.0; PFloat 0.5; PFloat 0.0]);
                (PInt 50, PList [PFloat 0.0; PFloat 0.5; PFloat 1.0])]
               sample_data).1 !! 12%nat = Some fc'
    /\ keyframe_points fc' !! 1%nat =
       Some {| co := (PInt 50, PFloat 1.0);
               handle_left := {| vx := PInt 49; vy := PFloat 1.0 |};
               handle_right := {| vx := PInt 51; vy := PFloat 1.0 |} |}.
Proof.
  destruct (index_curves_total sample_curves [10; 11; 12]%nat ∅)
    as [by_index Hidx].
  { repeat constructor; eexists; reflexivity. }
  apply (update_color_fcurves_writes sample_data "LayeredAction"
           layered_action [10; 11; 12]%nat by_index
           [(PInt 1, PList [PFloat 1.0; PFloat 0.5; PFloat 0.0]);
            (PInt 50, PList [PFloat 0.0; PFloat 0.5; PFloat 1.0])]
           12%nat
           {| data_path := "color"; array_index := 2;
              keyframe_points := [sample_point 1 0; sample_point 50 0] |}
           1%nat 2%nat (PInt 50)
           (PList [PFloat 0.0; PFloat 0.5; PFloat 1.0]) (PFloat 1.0)
           (sample_point 50 0));
    try reflexivity; try exact Hidx; try (repeat constructor); try lia.
  vm_compute in Hidx. injection Hidx as <-. reflexivity.
Defined.

(** ** The keyframes of the sphere *)

Lemma triple_bind {S A B : Type} (P : S -> Prop) (Q : A -> S -> Prop)
    (R : B -> S -> Prop) (m : host S A) (k : A -> host S B) :
  triple P m Q -> (forall a, triple (Q a) (k a) R) -> triple P (m ≫= k) R.
Proof.
  intros Hm Hk s Hs. rewrite host_bind_run.
  destruct (Hm s Hs) as (a & Ha & Hq).
  destruct (m s) as [s' r]. simpl in Ha, Hq. subst r.
  apply Hk. assumption.
Qed.

Lemma pick_curve_index (h : gmap fref fcurve) (curves : list fref)
    (by_index : gmap Z fref) (i : nat) :
  index_curves h curves ∅ = Ok by_index ->
  pick_curve by_index curves i = by_index !! Z.of_nat i.
Proof.
  intros Hidx. unfold pick_curve.
  destruct (decide (by_index = ∅)) as [->|_]; [|reflexivity].
  rewrite lookup_empty. destruct curves as [|r rest]; [reflexivity|].
  exfalso. simpl in Hidx.
  destruct (h !! r) as [fc|] eqn:Hr; [|discriminate].
  destruct (index_curves_complete _ _ _ _ Hidx) as [Hacc _].
  destruct (Hacc (array_index fc)) as [r' Hr'].
  - rewrite lookup_insert_eq. eauto.
  - rewrite lookup_empty in Hr'. discriminate.
Qed.

(** X16: the positional fallback of the sphere block never selects a
    curve: an index built from the curves is empty only when there are no
    curves, so a curve is always picked by its array index. *)
Theorem positional_fallback_unused (h : gmap fref fcurve)
    (curves : list fref) (by_index : gmap Z fref) (i : nat) :
  index_curves h curves ∅ = Ok by_index ->
  pick_curve by_index curves i = by_index !! Z.of_nat i
  /\ (by_index = ∅ -> curves = []).
Proof.
  intros Hidx. split; [eapply pick_curve_index; eassumption|].
  intros ->. destruct curves as [|r rest]; [reflexivity|].
  exfalso. simpl in Hidx.
  destruct (h !! r) as [fc|] eqn:Hr; [|discriminate].
  destruct (index_curves_complete _ _ _ _ Hidx) as [Hacc _].
  destruct (Hacc (array_index fc)) as [r' Hr'].
  - rewrite lookup_insert_eq. eauto.
  - rewrite lookup_empty in Hr'. discriminate.
Qed.

Lemma positional_fallback_unused_witness :
  pick_curve {[ 0 := 20%nat; 3 := 13%nat ]} [20; 13]%nat 1
  = ({[ 0 := 20%nat; 3 := 13%nat ]} : gmap Z fref) !! Z.of_nat 1.
Proof.
  apply (positional_fallback_unused sample_curves [20; 13]%nat
           {[ 0 := 20%nat; 3 := 13%nat ]} 1).
  vm_compute. reflexivity.
Defined.

Lemma set_kp_kept (touched : fref -> Prop) (h0 h : gmap fref fcurve)
    (fc : option fref) (idx : nat) (frame value : pyval) :
  (forall r, fc = Some r ->
     touched r /\ exists c, h0 !! r = Some c /\ 0 <= array_index c < 3) ->
  (idx < 2)%nat ->
  store_kept 2 touched h0 h ->
  store_kept 2 touched h0 (_set_kp fc idx frame value h).1
  /\ (_set_kp fc idx frame value h).2 = Ok tt.
Proof.
  intros Hfc Hidx Hkept. unfold _set_kp.
  destruct fc as [r|]; [|split; [assumption | reflexivity]].
  destruct (Hfc r eq_refl) as (Htouched & c0 & Hc0 & Harr).
  pose proof (Hkept r) as Hkr. rewrite Hc0 in Hkr.
  destruct Hkr as (c & Hc & Hcurve & _).
  rewrite host_bind_run. unfold deref. rewrite Hc.
  destruct (idx <? length (keyframe_points c))%nat;
    [|split; [assumption | reflexivity]].
  split; [|reflexivity].
  unfold modify. cbn [fst]. intros r'. specialize (Hkept r').
  destruct (decide (r' = r)) as [->|Hne].
  - rewrite Hc0. rewrite lookup_alter_eq, Hc.
    cbn [fmap option_fmap option_map].
    eexists. split; [reflexivity|]. split.
    + apply set_keyframe_kept; assumption.
    + intros Hnot. contradiction.
  - rewrite lookup_alter_ne by congruence. assumption.
Qed.

Lemma set_kp_point (fc : option fref) (idx : nat) (frame value : pyval)
    (r : fref) (p : nat) (x : keyframe_point) (h : gmap fref fcurve) :
  point_is r p x h ->
  point_is r p (if decide (fc = Some r /\ idx = p)
                then write_point frame value x else x)
    (_set_kp fc idx frame value h).1.
Proof.
  intros (c & Hc & Hx). unfold _set_kp.
  destruct fc as [r'|].
  2:{ rewrite decide_False by (intros [? _]; discriminate). exists c. auto. }
  rewrite host_bind_run. unfold deref.
  destruct (h !! r') as [c'|] eqn:Hc'.
  2:{ rewrite decide_False by (intros [[= ->] _]; congruence).
      exists c. auto. }
  destruct (idx <? length (keyframe_points c'))%nat eqn:Hlen.
  - unfold modify, point_is. cbn [fst].
    destruct (decide (r' = r)) as [->|Hne].
    + rewrite lookup_alter_eq, Hc. cbn [fmap option_fmap option_map].
      eexists. split; [reflexivity|]. cbn [set_keyframe keyframe_points].
      destruct (decide (idx = p)) as [->|Hp].
      * rewrite decide_True by auto.
        rewrite list_lookup_alter_eq, Hx. reflexivity.
      * rewrite decide_False by (intros [_ ?]; congruence).
        rewrite list_lookup_alter_ne by assumption. assumption.
    + rewrite decide_False by (intros [[= ->] _]; congruence).
      rewrite lookup_alter_ne by congruence. exists c. auto.
  - assert (Hne : ~ (Some r' = Some r /\ idx = p)).
    { intros [[= ->] ->]. apply Nat.ltb_ge in Hlen.
      apply lookup_lt_Some in Hx. replace c' with c in * by congruence.
      lia. }
    rewrite decide_False by assumption. exists c. auto.
Qed.

Lemma triple_post {S A : Type} (P : S -> Prop) (Q Q' : A -> S -> Prop)
    (m : host S A) :
  triple P m Q' -> (forall a s, Q' a s -> Q a s) -> triple P m Q.
Proof.
  intros Hm Himp s Hs. destruct (Hm s Hs) as (a & Ha & Hq). eauto.
Qed.

Lemma set_kp_param_kept (params : gmap string pyval) (fc : option fref)
    (idx : nat) (frame : pyval) (key : string) (touched : fref -> Prop)
    (st0 : bpy_data) :
  (forall r, fc = Some r ->
     touched r /\ exists c, fcurves st0 !! r = Some c
                            /\ 0 <= array_index c < 3) ->
  (idx < 2)%nat ->
  keeps (curves_kept 2 touched st0) (set_kp_param params fc idx frame key).
Proof.
  intros Hfc Hidx st (Hact & Hmat & Hkept). unfold set_kp_param.
  rewrite host_bind_run. unfold lift.
  destruct (py_param params key) as [value|e]; [|repeat split; assumption].
  unfold zoom.
  destruct (set_kp_kept touched (fcurves st0) (fcurves st) fc idx frame value
              Hfc Hidx Hkept) as [Hkept' _].
  destruct (_set_kp fc idx frame value (fcurves st)) as [h' r].
  repeat split; assumption.
Qed.

Lemma set_kp_param_triple (params : gmap string pyval) (fc : option fref)
    (idx : nat) (frame value : pyval) (key : string)
    (touched : fref -> Prop) (st0 : bpy_data) (r : fref)
    (x0 x1 : keyframe_point) :
  params !! key = Some value ->
  (forall r, fc = Some r ->
     touched r /\ exists c, fcurves st0 !! r = Some c
                            /\ 0 <= array_index c < 3) ->
  (idx < 2)%nat ->
  triple
    (fun st => curves_kept 2 touched st0 st
               /\ point_is r 0 x0 (fcurves st)
               /\ point_is r 1 x1 (fcurves st))
    (set_kp_param params fc idx frame key)
    (fun _ st =>
       curves_kept 2 touched st0 st
       /\ point_is r 0 (if decide (fc = Some r /\ idx = 0%nat)
                        then write_point frame value x0 else x0) (fcurves st)
       /\ point_is r 1 (if decide (fc = Some r /\ idx = 1%nat)
                        then write_point frame value x1 else x1) (fcurves st)).
Proof.
  intros Hkey Hfc Hidx st ((Hact & Hmat & Hkept) & H0 & H1).
  unfold set_kp_param. rewrite host_bind_run. unfold lift, py_param.
  rewrite Hkey. unfold zoom.
  destruct (set_kp_kept touched (fcurves st0) (fcurves st) fc idx frame value
              Hfc Hidx Hkept) as [Hkept' Hok].
  pose proof (set_kp_point fc idx frame value r 0 x0 (fcurves st) H0) as H0'.
  pose proof (set_kp_point fc idx frame value r 1 x1 (fcurves st) H1) as H1'.
  destruct (_set_kp fc idx frame value (fcurves st)) as [h' res].
  simpl in Hok. subst res. exists tt. split; [reflexivity|].
  repeat split; assumption.
Qed.

Lemma picked_curve_sound (h : gmap fref fcurve) (curves : list fref)
    (by_index : gmap Z fref) (i : nat) (r : fref) :
  index_curves h curves ∅ = Ok by_index -> (i < 3)%nat ->
  pick_curve by_index curves i = Some r ->
  r ∈ curves /\ exists c, h !! r = Some c /\ 0 <= array_index c < 3.
Proof.
  intros Hidx Hi Hpick. rewrite (pick_curve_index h) in Hpick by assumption.
  destruct (index_curves_touch _ _ _ Hidx _ _ Hpick) as (Hin & c & Hc & Harr).
  split; [assumption|]. exists c. split; [assumption|]. lia.
Qed.

(** X17: the sphere block writes within bounds.  Whatever the parameters
    and whether or not it raises, it adds and removes no curve and no
    keyframe point, leaves actions and materials alone, leaves every
    curve whose array index is not 0, 1 or 2 as it is, and changes no
    keyframe point from position 2 on. *)
Theorem set_sphere_keyframes_in_range (params : gmap string pyval)
    (st : bpy_data) :
  let st' := (set_sphere_keyframes params st).1 in
  actions st' = actions st /\ materials st' = materials st
  /\ forall r,
       match fcurves st !! r with
       | None => fcurves st' !! r = None
       | Some fc =>
           exists fc',
             fcurves st' !! r = Some fc'
             /\ array_index fc' = array_index fc
             /\ length (keyframe_points fc') = length (keyframe_points fc)
             /\ (~ (0 <= array_index fc < 3) -> fc' = fc)
             /\ (forall p, (2 <= p)%nat ->
                   keyframe_points fc' !! p = keyframe_points fc !! p)
       end.
Proof.
  assert (Hkept : exists touched,
            curves_kept 2 touched st (set_sphere_keyframes params st).1).
  { unfold set_sphere_keyframes. rewrite host_bind_run.
    unfold get_state at 1.
    destruct (actions st !! "SphereAction") as [a|];
      [|exists (fun _ => True); repeat split; apply store_kept_refl].
    cbv zeta.
    set (curves := match get_action_fcurves a with
                   | Ok c => c
                   | Raise _ => default [] (act_fcurves a)
                   end).
    exists (fun r => r ∈ curves).
    rewrite host_bind_run. unfold lift at 1.
    destruct (index_curves (fcurves st) curves ∅) as [by_index|e] eqn:Hidx;
      [|repeat split; apply store_kept_refl].
    apply (keeps_apply (curves_kept 2 (fun r => r ∈ curves) st));
      [|repeat split; apply store_kept_refl].
    walk_host ltac:(apply set_kp_param_kept;
                    [intros r Hr;
                     apply (picked_curve_sound _ _ _ _ _ Hidx) in Hr;
                     [exact Hr | lia]
                    | lia]). }
  destruct Hkept as (touched & Hact & Hmat & Hstore).
  intros st'. split; [assumption|]. split; [assumption|].
  intros r. specialize (Hstore r). fold st' in Hstore.
  destruct (fcurves st !! r) as [fc|]; [|assumption].
  destruct Hstore as (fc' & Hfc' & (_ & Harr & Hlen & Hhigh & Hother) & _).
  exists fc'. auto.
Qed.

Lemma set_sphere_keyframes_in_range_witness :
  fcurves (set_sphere_keyframes lens_flare_injected sphere_data).1 !! 13%nat
  = fcurves sphere_data !! 13%nat.
Proof.
  pose proof (set_sphere_keyframes_in_range lens_flare_injected sphere_data)
    as (_ & _ & H).
  specialize (H 13%nat).
  change (fcurves sphere_data !! 13%nat) with
    (Some {| data_path := "color"; array_index := 3;
             keyframe_points := [sample_point 1 1; sample_point 50 1] |})
    in H |- *.
  destruct H as (fc' & Hfc' & _ & _ & Hsame & _).
  transitivity (Some fc'); [exact Hfc'|].
  f_equal. apply Hsame. simpl. lia.
Defined.

Lemma set_sphere_keyframes_run (params : gmap string pyval) (st : bpy_data)
    (a : action) (curves : list fref) (by_index : gmap Z fref) :
  actions st !! "SphereAction" = Some a ->
  get_action_fcurves a = Ok curves ->
  index_curves (fcurves st) curves ∅ = Ok by_index ->
  set_sphere_keyframes params st =
  (set_kp_param params (by_index !! Z.of_nat 0) 0 (PFloat 1.0) "start_x";;
   set_kp_param params (by_index !! Z.of_nat 1) 0 (PFloat 1.0) "start_y";;
   set_kp_param params (by_index !! Z.of_nat 2) 0 (PFloat 1.0) "start_z";;
   set_kp_param params (by_index !! Z.of_nat 0) 1 (PFloat 300.0) "end_x";;
   set_kp_param params (by_index !! Z.of_nat 1) 1 (PFloat 300.0) "end_y";;
   set_kp_param params (by_index !! Z.of_nat 2) 1 (PFloat 300.0) "end_z") st.
Proof.
  intros Hact Hcurves Hidx. unfold set_sphere_keyframes.
  rewrite host_bind_run. unfold get_state at 1. rewrite Hact.
  cbv zeta. rewrite Hcurves.
  rewrite host_bind_run. unfold lift at 1. rewrite Hidx.
  rewrite !(pick_curve_index (fcurves st)) by assumption. reflexivity.
Qed.

(** X18: with the six position parameters present and the curves alive,
    the sphere block runs to the end, and the curve the index holds for
    axis [i] gets the start position of that axis at frame 1.0 in its
    first keyframe point and the end position at frame 300.0 in its
    second. *)
Theorem set_sphere_keyframes_writes (params : gmap string pyval)
    (st : bpy_data) (a : action) (curves : list fref)
    (by_index : gmap Z fref) (i : nat) (r : fref) (fc : fcurve)
    (kp0 kp1 : keyframe_point) (vs ve : pyval) :
  actions st !! "SphereAction" = Some a ->
  get_action_fcurves a = Ok curves ->
  index_curves (fcurves st) curves ∅ = Ok by_index ->
  (forall j, (j < 3)%nat -> is_Some (params !! axis_key "start_" j)
                            /\ is_Some (params !! axis_key "end_" j)) ->
  (i < 3)%nat -> by_index !! Z.of_nat i = Some r ->
  fcurves st !! r = Some fc ->
  keyframe_points fc !! 0%nat = Some kp0 ->
  keyframe_points fc !! 1%nat = Some kp1 ->
  params !! axis_key "start_" i = Some vs ->
  params !! axis_key "end_" i = Some ve ->
  (set_sphere_keyframes params st).2 = Ok tt
  /\ exists fc',
       fcurves (set_sphere_keyframes params st).1 !! r = Some fc'
       /\ keyframe_points fc' !! 0%nat
          = Some (write_point (PFloat 1.0) vs kp0)
       /\ keyframe_points fc' !! 1%nat
          = Some (write_point (PFloat 300.0) ve kp1).
Proof.
  intros Hact Hcurves Hidx Hparams Hi Hr Hfc Hkp0 Hkp1 Hvs Hve.
  destruct (Hparams 0%nat ltac:(lia)) as [[sx Hsx] [ex Hex]].
  destruct (Hparams 1%nat ltac:(lia)) as [[sy Hsy] [ey Hey]].
  destruct (Hparams 2%nat ltac:(lia)) as [[sz Hsz] [ez Hez]].
  assert (Hdistinct : forall j, j ≠ i -> by_index !! Z.of_nat j ≠ Some r).
  { intros j Hj Hrj.
    destruct (index_curves_touch _ _ _ Hidx _ _ Hr) as (_ & c1 & Hc1 & Ha1).
    destruct (index_curves_touch _ _ _ Hidx _ _ Hrj) as (_ & c2 & Hc2 & Ha2).
    apply Hj. apply Nat2Z.inj. congruence. }
  assert (Hsound : forall j r', (j < 3)%nat ->
            by_index !! Z.of_nat j = Some r' ->
            r' ∈ curves /\ exists c, fcurves st !! r' = Some c
                                     /\ 0 <= array_index c < 3).
  { intros j r' Hj Hpick.
    destruct (index_curves_touch _ _ _ Hidx _ _ Hpick)
      as (Hin & c & Hc & Harr).
    split; [assumption|]. exists c. split; [assumption|]. lia. }
  rewrite (set_sphere_keyframes_run params st a curves by_index)
    by assumption.
  match goal with
  | |- (?m st).2 = _ /\ _ =>
      assert (Htriple : triple
        (fun s => curves_kept 2 (fun r => r ∈ curves) st s
                  /\ point_is r 0 kp0 (fcurves s)
                  /\ point_is r 1 kp1 (fcurves s))
        m
        (fun _ s => point_is r 0 (write_point (PFloat 1.0) vs kp0) (fcurves s)
                    /\ point_is r 1 (write_point (PFloat 300.0) ve kp1)
                         (fcurves s)))
  end.
  { eapply triple_post.
    - repeat (eapply triple_bind;
                [eapply set_kp_param_triple;
                   [eassumption | intros ? ?; eapply Hsound; [|eassumption]; lia
                   | lia]
                | intros []]).
      eapply set_kp_param_triple;
        [eassumption | intros ? ?; eapply Hsound; [|eassumption]; lia | lia].
    - cbv beta. intros _ s (_ & H0 & H1).
      destruct i as [|[|[|i]]]; try lia;
        simpl in Hvs, Hve;
        pose proof (Hdistinct 0%nat) as Hd0;
        pose proof (Hdistinct 1%nat) as Hd1;
        pose proof (Hdistinct 2%nat) as Hd2;
        repeat match type of H0 with
               | context [decide ?P] =>
                   first [ rewrite (decide_True (P := P)) in H0
                             by (split; [assumption | reflexivity])
                         | rewrite (decide_False (P := P)) in H0
                             by (intros [Hq Hn];
                                 first [discriminate Hn
                                       | apply Hd0 in Hq; [exact Hq|lia]
                                       | apply Hd1 in Hq; [exact Hq|lia]
                                       | apply Hd2 in Hq; [exact Hq|lia]]) ]
               end;
        repeat match type of H1 with
               | context [decide ?P] =>
                   first [ rewrite (decide_True (P := P)) in H1
                             by (split; [assumption | reflexivity])
                         | rewrite (decide_False (P := P)) in H1
                             by (intros [Hq Hn];
                                 first [discriminate Hn
                                       | apply Hd0 in Hq; [exact Hq|lia]
                                       | apply Hd1 in Hq; [exact Hq|lia]
                                       | apply Hd2 in Hq; [exact Hq|lia]]) ]
               end;
        clear Hd0 Hd1 Hd2; simplify_eq; split; assumption. }
  destruct (Htriple st) as ([] & Hok & (c0 & Hc0 & Hp0) & (c1 & Hc1 & Hp1)).
  { split; [repeat split; apply store_kept_refl|].
    split; exists fc; auto. }
  split; [exact Hok|].
  exists c0. split; [exact Hc0|]. split; [exact Hp0|].
  replace c0 with c1 by congruence. exact Hp1.
Qed.

Lemma set_sphere_keyframes_writes_witness :
  (set_sphere_keyframes lens_flare_injected sphere_data).2 = Ok tt
  /\ exists fc',
       fcurves (set_sphere_keyframes lens_flare_injected sphere_data).1
         !! 10%nat = Some fc'
       /\ keyframe_points fc' !! 0%nat
          = Some (write_point (PFloat 1.0) (PFloat 3.8) (sample_point 1 0))
       /\ keyframe_points fc' !! 1%nat
          = Some (write_point (PFloat 300.0) (PFloat (-4.6))
                    (sample_point 50 0)).
Proof.
  apply (set_sphere_keyframes_writes lens_flare_injected sphere_data
           {| act_fcurves := Some [10; 11; 12]%nat; act_layers := None |}
           [10; 11; 12]%nat
           {[ 0 := 10%nat; 1 := 11%nat; 2 := 12%nat ]} 0 10%nat
           {| data_path := "color"; array_index := 0;
              keyframe_points := [sample_point 1 0; sample_point 50 0] |});
    try reflexivity; try lia.
  intros [|[|[|j]]] Hj; try lia; split; eexists; reflexivity.
Defined.

(** ** The render options and the frame range *)

Ltac step_assign :=
  match goal with
  | |- context [(assign_render ?p ?k ?f ≫= _) ?s] =>
      rewrite host_bind_run, (assign_render_run p k f s);
      destruct (p !! k) eqn:?; cbv beta iota
  | |- context [assign_render ?p ?k ?f ?s] =>
      rewrite (assign_render_run p k f s);
      destruct (p !! k) eqn:?; cbv beta iota
  end.

Lemma set_render_options_cases (params : gmap string pyval) (sc : scene) :
  (Forall (fun k => is_Some (params !! k)) render_keys
   /\ (set_render_options params sc).2 = Ok tt)
  \/ (Exists (fun k => params !! k = None) render_keys
      /\ (set_render_options params sc).2 = Raise KeyError).
Proof.
  unfold set_render_options.
  do 2 (step_assign;
        [|right; split; [|reflexivity];
          apply Exists_exists; eexists; split; [|eassumption];
          unfold render_keys; set_solver]).
  destruct (params !! "fps_base") eqn:Hbase.
  - rewrite host_bind_run, assign_render_run, Hbase. cbv beta iota.
    repeat (step_assign;
            [|right; split; [|reflexivity];
              apply Exists_exists; eexists; split; [|eassumption];
              unfold render_keys; set_solver]).
    left. split; [|reflexivity]. repeat constructor; eauto.
  - rewrite host_ret_bind.
    repeat (step_assign;
            [|right; split; [|reflexivity];
              apply Exists_exists; eexists; split; [|eassumption];
              unfold render_keys; set_solver]).
    left. split; [|reflexivity]. repeat constructor; eauto.
Qed.

(** X19: the render options are written to the end exactly when the
    eight keys they read are all present; with any of them missing the
    block raises [KeyError]. *)
Theorem set_render_options_needs_keys (params : gmap string pyval)
    (sc : scene) :
  ((set_render_options params sc).2 = Ok tt
   <-> Forall (fun k => is_Some (params !! k)) render_keys)
  /\ ((set_render_options params sc).2 = Raise KeyError
      <-> Exists (fun k => params !! k = None) render_keys).
Proof.
  assert (Hexcl : Forall (fun k => is_Some (params !! k)) render_keys ->
                  Exists (fun k => params !! k = None) render_keys -> False).
  { intros Hall Hex. apply Exists_exists in Hex as (k & Hin & Hk).
    rewrite Forall_forall in Hall. destruct (Hall k Hin) as [v Hv].
    congruence. }
  destruct (set_render_options_cases params sc) as [[Hall Hok]|[Hex Hraise]];
    rewrite ?Hok, ?Hraise; repeat split; intros; try assumption;
    try discriminate; try reflexivity; exfalso; eauto.
Qed.

Lemma set_render_options_needs_keys_witness :
  (set_render_options (merge_params default_params (Some lens_flare_injected))
     blank_scene).2 = Ok tt.
Proof.
  apply (proj1 (set_render_options_needs_keys
                  (merge_params default_params (Some lens_flare_injected))
                  blank_scene)).
  repeat constructor; vm_compute; eauto.
Defined.

Lemma merged_lookup (injected : gmap string pyval) (k : string) :
  merge_params default_params (Some injected) !! k =
  match injected !! k with
  | Some v => Some v
  | None => default_params !! k
  end.
Proof. simpl. apply dict_update_lookup. Qed.

Lemma merged_render_keys (injected : gmap string pyval) :
  Forall (fun k => is_Some (merge_params default_params (Some injected) !! k))
    render_keys
  <-> is_Some (injected !! "alpha_mode").
Proof.
  split.
  - intros Hall. rewrite Forall_forall in Hall.
    specialize (Hall "alpha_mode" ltac:(unfold render_keys; set_solver)).
    rewrite merged_lookup in Hall.
    destruct (injected !! "alpha_mode"); [eauto|].
    destruct Hall as [v Hv]. discriminate.
  - intros Halpha. unfold render_keys.
    repeat constructor; rewrite merged_lookup;
      match goal with
      | |- is_Some (match ?o with _ => _ end) =>
          destruct o; [eauto | first [assumption | eexists; reflexivity]]
      end.
Qed.

(** X20: over the hardcoded defaults the render options need one thing
    from the injected object: they run to the end exactly when it has
    [alpha_mode], the one render key without a default. *)
Theorem render_options_need_alpha_mode (injected : gmap string pyval)
    (sc : scene) :
  (set_render_options (merge_params default_params (Some injected)) sc).2
  = Ok tt
  <-> is_Some (injected !! "alpha_mode").
Proof.
  rewrite <- merged_render_keys.
  destruct (set_render_options_cases
              (merge_params default_params (Some injected)) sc)
    as [[Hall Hok]|[Hex Hraise]].
  - rewrite Hok. split; auto.
  - rewrite Hraise. split; [discriminate|].
    intros Hall. exfalso.
    apply Exists_exists in Hex as (k & Hin & Hk).
    rewrite Forall_forall in Hall. destruct (Hall k Hin) as [v Hv].
    congruence.
Qed.

Lemma render_options_need_alpha_mode_witness :
  (set_render_options
     (merge_params default_params (Some {[ "alpha_mode" := PInt 1 ]}))
     blank_scene).2 = Ok tt.
Proof.
  apply (proj2 (render_options_need_alpha_mode {[ "alpha_mode" := PInt 1 ]}
                  blank_scene)).
  eexists. reflexivity.
Defined.

Lemma render_options_cases_ok (injected : gmap string pyval) (sc : scene) :
  is_Some (injected !! "alpha_mode") ->
  (set_render_options (merge_params default_params (Some injected)) sc).2
  = Ok tt.
Proof.
  intros Halpha. apply merged_render_keys in Halpha.
  destruct (set_render_options_cases
              (merge_params default_params (Some injected)) sc)
    as [[_ Hok]|[Hex _]]; [assumption|].
  exfalso. apply Exists_exists in Hex as (k & Hin & Hk).
  rewrite Forall_forall in Halpha. destruct (Halpha k Hin) as [v Hv].
  congruence.
Qed.

(** X21: the whole tail of the script over the defaults.  With
    [alpha_mode] injected and a [length_multiplier] that rounds to [k],
    the tail runs to the end; the frame range starts at the injected
    [start_frame], or 20 without one, and ends at [k] times the injected
    [end_frame], or 25 without one. *)
Theorem render_script_frame_range (injected : gmap string pyval)
    (sc : scene) (lm v : pyval) (k : Z) :
  is_Some (injected !! "alpha_mode") ->
  injected !! "length_multiplier" = Some lm -> py_round lm = Ok k ->
  py_mul (default (PInt 25) (injected !! "end_frame")) (PInt k) = Ok v ->
  let run := render_script (Some injected) sc in
  run.2 = Ok tt
  /\ frame_start run.1 = default (PInt 20) (injected !! "start_frame")
  /\ frame_end run.1 = v
  /\ frame_map_old (render run.1) = PInt 1
  /\ frame_map_new (render run.1) = PInt k.
Proof.
  intros Halpha Hlm Hk Hv run. unfold run, render_script.
  rewrite host_bind_run.
  apply (render_options_cases_ok injected sc) in Halpha.
  destruct (set_render_options _ sc) as [sc1 r]. simpl in Halpha. subst r.
  rewrite (set_animation_length_run _ sc1 lm
             (default (PInt 25) (injected !! "end_frame"))
             (default (PInt 20) (injected !! "start_frame")) v k);
    try assumption.
  - repeat split.
  - rewrite merged_lookup, Hlm. reflexivity.
  - rewrite merged_lookup. destruct (injected !! "end_frame"); reflexivity.
  - rewrite merged_lookup. destruct (injected !! "start_frame"); reflexivity.
Qed.

Lemma render_script_frame_range_witness :
  let run := render_script
               (Some {[ "alpha_mode" := PInt 1;
                        "length_multiplier" := PFloat 2.5 ]}) blank_scene in
  run.2 = Ok tt
  /\ frame_start run.1 = PInt 20
  /\ frame_end run.1 = PInt 50
  /\ frame_map_old (render run.1) = PInt 1
  /\ frame_map_new (render run.1) = PInt 2.
Proof.
  pose proof (render_script_frame_range
                {[ "alpha_mode" := PInt 1; "length_multiplier" := PFloat 2.5 ]}
                blank_scene (PFloat 2.5) (PInt 50) 2) as H.
  assert (Halpha : is_Some
            (({[ "alpha_mode" := PInt 1; "length_multiplier" := PFloat 2.5 ]}
               : gmap string pyval) !! "alpha_mode"))
    by (eexists; reflexivity).
  exact (H Halpha eq_refl eq_refl eq_refl).
Defined.

(** X22: the frame range is written only at the very end: whenever
    "Animation Speed" raises, [frame_start] and [frame_end] are as
    before, and unless the missing parameter is [start_frame] the whole
    scene is. *)
Theorem set_animation_length_raises (params : gmap string pyval)
    (sc : scene) (e : pyexn) :
  (set_animation_length params sc).2 = Raise e ->
  frame_start (set_animation_length params sc).1 = frame_start sc
  /\ frame_end (set_animation_length params sc).1 = frame_end sc
  /\ (is_Some (params !! "start_frame") ->
      (set_animation_length params sc).1 = sc).
Proof.
  unfold set_animation_length, py_param, lift, modify, mbind, host_bind.
  destruct (params !! "length_multiplier") as [lm|]; [|auto].
  destruct (py_round lm) as [k|]; [|auto].
  destruct (params !! "end_frame") as [ef|]; [|auto].
  destruct (py_mul ef (PInt k)) as [v|]; [|auto].
  destruct (params !! "start_frame") as [sf|]; simpl.
  - discriminate.
  - intros _. repeat split. intros [x Hx]. discriminate.
Qed.

Lemma set_animation_length_raises_witness :
  (set_animation_length (frame_params (PStr "fast")) blank_scene).1
  = blank_scene.
Proof.
  apply (set_animation_length_raises (frame_params (PStr "fast")) blank_scene
           TypeError).
  - reflexivity.
  - eexists. reflexivity.
Defined.

(** ** Rounding of the length multiplier *)

Lemma round_half_even_nearest (m k : positive) :
  let d := 2 ^ Z.pos k in
  let n := round_half_even m (Z.neg k) in
  0 <= n
  /\ 2 * Z.abs (n * d - Z.pos m) <= d
  /\ (2 * Z.abs (n * d - Z.pos m) = d -> Z.even n = true).
Proof.
  intros d n. unfold n, round_half_even. rewrite Z.pow_pos_fold. fold d.
  assert (Hd : 0 < d) by (apply Z.pow_pos_nonneg; lia).
  clearbody d.
  pose proof (Z.div_mod (Z.pos m) d ltac:(lia)) as Hdiv.
  pose proof (Z.mod_pos_bound (Z.pos m) d Hd) as Hmod.
  assert (Hq : 0 <= Z.pos m / d) by (apply Z.div_pos; lia).
  set (q := Z.pos m / d) in *. set (r := Z.pos m mod d) in *.
  destruct (Z.compare_spec (2 * r) d) as [Hcmp|Hcmp|Hcmp].
  - destruct (Z.even q) eqn:Heven.
    + split; [lia|]. split; [lia|]. intros _. exact Heven.
    + split; [lia|]. split; [lia|]. intros _.
      rewrite Z.even_add, Heven. reflexivity.
  - split; [lia|]. split; [lia | intros Htie; exfalso; lia].
  - split; [lia|]. split; [lia | intros Htie; exfalso; lia].
Qed.

(** X23: the integer that [round] makes of a finite float multiplier,
    and that the script writes to [frame_map_new], is a nearest integer:
    it differs from the multiplier by at most one half, and by exactly
    one half only when it is even.  A multiplier without a fractional
    part is taken as it is. *)
Theorem py_round_nearest (f : float) (sg : bool) (m : positive) (e n : Z) :
  Prim2SF f = S754_finite sg m e ->
  py_round (PFloat f) = Ok n ->
  let v := if sg then Z.neg m else Z.pos m in
  match e with
  | Zneg k =>
      2 * Z.abs (n * 2 ^ Z.pos k - v) <= 2 ^ Z.pos k
      /\ (2 * Z.abs (n * 2 ^ Z.pos k - v) = 2 ^ Z.pos k -> Z.even n = true)
  | _ => n = v * 2 ^ e
  end.
Proof.
  intros Hf Hn v. simpl in Hn. rewrite Hf in Hn. injection Hn as <-.
  destruct e as [|k|k].
  - unfold v. destruct sg; simpl; lia.
  - unfold v, round_half_even. destruct sg; lia.
  - destruct (round_half_even_nearest m k) as (Hpos & Hnear & Htie).
    unfold v. destruct sg.
    + replace (- round_half_even m (Z.neg k) * 2 ^ Z.pos k - Z.neg m)
        with (- (round_half_even m (Z.neg k) * 2 ^ Z.pos k - Z.pos m))
        by lia.
      rewrite Z.abs_opp, Z.even_opp. auto.
    + auto.
Qed.

Lemma py_round_nearest_witness :
  2 * Z.abs (2 * 2 ^ 51 - 5629499534213120) <= 2 ^ 51
  /\ (2 * Z.abs (2 * 2 ^ 51 - 5629499534213120) = 2 ^ 51 ->
      Z.even 2 = true).
Proof.
  apply (py_round_nearest 2.5%float false 5629499534213120 (-51) 2);
    vm_compute; reflexivity.
Defined.

(** ** Loading a font *)

Lemma font_by_name_found (fonts : list font) (name : string) :
  name ∈ font_name <$> fonts ->
  exists f, font_by_name fonts name = Ok f /\ f ∈ fonts /\ font_name f = name.
Proof.
  intros Hin. apply list_elem_of_fmap in Hin as (f & Hname & Hf).
  unfold font_by_name.
  destruct (list_find (fun f => font_name f = name) fonts) as [[i g]|] eqn:Hfind.
  - apply list_find_Some in Hfind as (Hi & Hg & _).
    exists g. split; [reflexivity|]. split; [|assumption].
    eapply list_elem_of_lookup_2. eassumption.
  - apply list_find_None in Hfind. rewrite Forall_forall in Hfind.
    exfalso. apply (Hfind f Hf). auto.
Qed.

Lemma first_new_font_spec (original_fonts names : list string)
    (fonts : list font) :
  (forall name, name ∈ names -> name ∈ font_name <$> fonts) ->
  (exists f, first_new_font original_fonts names fonts = Ok (Some f)
             /\ f ∈ fonts /\ font_name f ∈ names
             /\ font_name f ∉ original_fonts)
  \/ (first_new_font original_fonts names fonts = Ok None
      /\ forall name, name ∈ names -> name ∈ original_fonts).
Proof.
  induction names as [|name rest IH]; intros Hnames.
  - right. split; [reflexivity|]. intros name Hin.
    apply elem_of_nil in Hin. contradiction.
  - simpl. case_bool_decide as Hold.
    + destruct IH as [(f & Hf & Hin & Hname & Hnew)|[Hnone Hall]].
      * intros n Hn. apply Hnames. right. assumption.
      * left. exists f. repeat split; try assumption. right. assumption.
      * right. split; [assumption|]. intros n Hn.
        apply elem_of_cons in Hn as [->|Hn]; auto.
    + left. destruct (font_by_name_found fonts name) as (f & Hf & Hin & Hname).
      { apply Hnames. left. }
      exists f. rewrite Hf. simpl. rewrite Hname.
      repeat split; try assumption. left.
Qed.

(** X24: when the operator returns, [load_font] returns too, never with
    a [KeyError] of its own.  A font it returns is among the fonts after
    the load under a name that was not there before; it returns [None]
    exactly when the load brought no new name, as when the operator
    finds the file already loaded. *)
Theorem load_font_new (font_open : pyval -> host (list font) unit)
    (font_path : pyval) (fonts : list font) :
  (font_open font_path fonts).2 = Ok tt ->
  let fonts' := (font_open font_path fonts).1 in
  (load_font font_open font_path fonts).1 = fonts'
  /\ ((exists f, (load_font font_open font_path fonts).2 = Ok (Some f)
                 /\ f ∈ fonts'
                 /\ font_name f ∉ font_name <$> fonts)
      \/ ((load_font font_open font_path fonts).2 = Ok None
          /\ forall f, f ∈ fonts' -> font_name f ∈ font_name <$> fonts)).
Proof.
  intros Hopen. cbv zeta.
  unfold load_font, mbind, host_bind, get_state, lift.
  destruct (font_open font_path fonts) as [fonts' r].
  cbn [fst snd] in *. subst r. cbn [fst snd].
  split; [reflexivity|].
  destruct (first_new_font_spec (font_name <$> fonts) (font_name <$> fonts')
              fonts') as [(f & Hf & Hin & _ & Hnew)|[Hnone Hall]].
  - auto.
  - left. exists f. auto.
  - right. split; [assumption|]. intros f Hf. apply Hall.
    apply list_elem_of_fmap. eauto.
Qed.

Lemma load_font_new_witness :
  (load_font open_reuses (PStr "/fonts/Bangers.ttf") [bfont]).2 = Ok None
  /\ (load_font open_appends (PStr "Bangers") [bfont]).2
     = Ok (Some {| font_name := "Bangers"; font_filepath := PStr "Bangers" |}).
Proof.
  split.
  - destruct (load_font_new open_reuses (PStr "/fonts/Bangers.ttf") [bfont]
                eq_refl) as [_ [(f & _ & Hin & Hnew)|[Hnone _]]].
    + exfalso. apply Hnew. apply list_elem_of_fmap. exists f. auto.
    + exact Hnone.
  - reflexivity.
Defined.

(** ** The texts of the space movie *)

Lemma set_body_run (params : gmap string pyval) (name : string)
    (objects : gmap string pyval) :
  set_body params name objects =
  match params !! name with
  | None => (objects, Raise KeyError)
  | Some value =>
      match objects !! name with
      | Some _ => (<[name := value]> objects, Ok tt)
      | None => (objects, Raise KeyError)
      end
  end.
Proof.
  unfold set_body, py_param, lift, get_state, modify, mbind, host_bind.
  destruct (params !! name); [|reflexivity].
  destruct (objects !! name); reflexivity.
Qed.

Lemma set_body_dom (params : gmap string pyval) (name : string)
    (objects0 : gmap string pyval) :
  keeps (fun objects => forall k, is_Some (objects !! k)
                                  <-> is_Some (objects0 !! k))
    (set_body params name).
Proof.
  intros objects Hdom. rewrite set_body_run.
  destruct (params !! name) as [value|]; [|assumption].
  destruct (objects !! name) as [old|] eqn:Hold; [|assumption].
  simpl. intros k. rewrite <- Hdom.
  destruct (decide (k = name)) as [->|Hne].
  - rewrite lookup_insert_eq, Hold. split; eauto.
  - rewrite lookup_insert_ne by congruence. reflexivity.
Qed.

Lemma spacemovie_texts_present (injected : gmap string pyval) :
  Forall (fun k => is_Some (merge_params spacemovie_default_params
                              (Some injected) !! k)) text_names.
Proof.
  unfold text_names. repeat constructor; simpl; rewrite dict_update_lookup;
    match goal with
    | |- is_Some (match ?o with _ => _ end) =>
        destruct o; [eauto | eexists; reflexivity]
    end.
Qed.

Ltac absurd_missing :=
  intros (? & ? & ? & ? & ? & _);
  repeat match goal with
         | H : is_Some _ |- _ => destruct H as [? H]
         end;
  congruence.

(** X25: the five texts of the space movie all have a default, so the
    text block fails only on a missing object: over the defaults and any
    injected object it runs to the end exactly when the five text objects
    exist; then each of them reads its merged parameter and every other
    object is as before.  It never adds or removes an object. *)
Theorem set_text_bodies_result (injected objects : gmap string pyval) :
  let params := merge_params spacemovie_default_params (Some injected) in
  let run := set_text_bodies params objects in
  (run.2 = Ok tt <-> Forall (fun k => is_Some (objects !! k)) text_names)
  /\ (run.2 = Ok tt ->
      forall k, run.1 !! k = if bool_decide (k ∈ text_names)
                             then params !! k else objects !! k)
  /\ (forall k, is_Some (run.1 !! k) <-> is_Some (objects !! k)).
Proof.
  intros params run.
  assert (Hdom : forall k, is_Some (run.1 !! k) <-> is_Some (objects !! k)).
  { unfold run, set_text_bodies.
    apply (keeps_apply (fun o => forall k, is_Some (o !! k)
                                           <-> is_Some (objects !! k)));
      [|reflexivity].
    walk_host ltac:(apply set_body_dom). }
  split; [|split; [|exact Hdom]].
  - unfold run, set_text_bodies.
    pose proof (spacemovie_texts_present injected) as Hpresent.
    fold params in Hpresent. unfold text_names in *.
    rewrite !Forall_cons, Forall_nil in Hpresent.
    destruct Hpresent as ([v1 H1] & [v2 H2] & [v3 H3] & [v4 H4] & [v5 H5] & _).
    rewrite !Forall_cons, Forall_nil.
    repeat (rewrite host_bind_run, set_body_run;
            rewrite ?H1, ?H2, ?H3, ?H4, ?H5;
            rewrite ?lookup_insert_ne by discriminate;
            match goal with
            | |- context [match objects !! ?k with _ => _ end] =>
                destruct (objects !! k) eqn:?
            end;
            [|split; [discriminate | absurd_missing]]).
    rewrite set_body_run, H5.
    rewrite ?lookup_insert_ne by discriminate.
    destruct (objects !! "MainText") eqn:?.
    + split; [|reflexivity]. intros _. repeat split; eauto.
    + split; [discriminate | absurd_missing].
  - intros Hok k. revert Hok. unfold run, set_text_bodies.
    repeat (rewrite host_bind_run, set_body_run;
            match goal with
            | |- context [match params !! ?n with _ => _ end] =>
                destruct (params !! n) eqn:?; [|discriminate]
            end;
            match goal with
            | |- context [match ?o !! ?n with Some _ => (_, Ok tt) | None => _ end] =>
                destruct (o !! n) eqn:?; [|discriminate]
            end).
    rewrite set_body_run.
    destruct (params !! "MainText") eqn:?; [|discriminate].
    match goal with
    | |- context [match ?o !! ?n with Some _ => (_, Ok tt) | None => _ end] =>
        destruct (o !! n) eqn:?; [|discriminate]
    end.
    intros _. cbn [fst]. unfold text_names.
    case_bool_decide as Hk.
    + repeat (apply elem_of_cons in Hk as [->|Hk];
              [rewrite ?lookup_insert_ne by discriminate;
               rewrite lookup_insert_eq; congruence|]).
      apply elem_of_nil in Hk. contradiction.
    + rewrite !lookup_insert_ne; [reflexivity|..]; intros <-; apply Hk;
        repeat constructor.
Qed.

Lemma set_text_bodies_result_witness :
  (set_text_bodies
     (merge_params spacemovie_default_params
        (Some {[ "Episode" := PStr "Episode IV" ]})) sample_objects).2
  = Ok tt.
Proof.
  apply (proj1 (set_text_bodies_result {[ "Episode" := PStr "Episode IV" ]}
                  sample_objects)).
  repeat constructor; eexists; reflexivity.
Defined.

(** ** The material of the flare *)

Lemma safe_rgba_ok (parse : string -> option float) (value : pyval) :
  exists r, _safe_rgba parse value = Ok r.
Proof.
  unfold _safe_rgba. destruct (ensure_rgba value) as [r|e]; [eauto|].
  simpl. destruct (py_float parse value); simpl; eauto.
Qed.

Lemma triple_ret {S A : Type} (J : S -> Prop) (a : A) :
  triple J (mret a : host S A) (fun _ => J).
Proof. intros s Hs. exists a. auto. Qed.

Lemma triple_lift {S A : Type} (J : S -> Prop) (r : pyres A) :
  (exists a, r = Ok a) -> triple J (lift r : host S A) (fun _ => J).
Proof. intros [a ->] s Hs. exists a. auto. Qed.

Lemma on_socket_modify_triple (name : string) (n i : nat)
    (f : socket -> socket) :
  (i < n)%nat ->
  triple (principled_inputs name n) (on_socket name i (modify f))
    (fun _ => principled_inputs name n).
Proof.
  intros Hi st (mat & bsdf & Hmat & Hbsdf & Hlen).
  destruct (lookup_lt_is_Some_2 (inputs bsdf) i) as [sk Hsk]; [lia|].
  unfold on_socket, zoom.
  assert (Hsock : socket_of name i st = Some sk).
  { unfold socket_of. rewrite Hmat. simpl. rewrite Hbsdf. assumption. }
  rewrite Hsock. unfold modify. cbn [fst snd].
  exists tt. split; [reflexivity|].
  unfold principled_inputs. rewrite put_socket_lookup.
  destruct (decide (name = name)); [|congruence].
  rewrite Hmat. cbn [fmap option_fmap option_map].
  unfold _get_principled_node in *. cbn [mat_node_tree].
  destruct (mat_node_tree mat) as [nt|]; [|discriminate].
  cbn [fmap option_fmap option_map nodes].
  eexists _, _. split; [reflexivity|]. cbn [mat_node_tree nodes].
  rewrite lookup_alter_eq, Hbsdf. cbn [fmap option_fmap option_map].
  split; [reflexivity|]. cbn [inputs]. rewrite length_insert. assumption.
Qed.

(** X26: the material block is skipped, parameters unread, when there is
    no material "Material.001", or it has no node tree, or the tree has
    no principled node: the state stays as it is and nothing is raised,
    whatever the parameters. *)
Theorem set_material_settings_skipped (parse : string -> option float)
    (params : gmap string pyval) (st : bpy_data) :
  (forall mat, materials st !! "Material.001" = Some mat ->
               _get_principled_node mat = None) ->
  set_material_settings parse params st = (st, Ok tt).
Proof.
  intros Hnone. unfold set_material_settings.
  rewrite host_bind_run. unfold get_state at 1.
  destruct (materials st !! "Material.001") as [mat|]; [|reflexivity].
  rewrite (Hnone mat eq_refl). reflexivity.
Qed.

Lemma set_material_settings_skipped_witness :
  set_material_settings (fun _ => None) ∅ sphere_data = (sphere_data, Ok tt).
Proof.
  apply (set_material_settings_skipped (fun _ => None) ∅ sphere_data).
  intros mat Hmat. discriminate Hmat.
Defined.

Lemma find_socket_lt (test : socket -> bool) (ins : list socket) (i : nat) :
  find_socket test ins = Some i -> (i < length ins)%nat.
Proof.
  unfold find_socket. intros Hfind.
  destruct (list_find (fun sk => test sk = true) ins) as [[j sk]|] eqn:Hj;
    [|discriminate].
  injection Hfind as <-. apply list_find_Some in Hj as (Hj & _).
  eapply lookup_lt_Some. eassumption.
Qed.

Lemma triple_run {S A : Type} (P : S -> Prop) (Q : A -> S -> Prop)
    (m : host S A) (s : S) :
  triple P m Q -> P s -> exists a, (m s).2 = Ok a /\ Q a (m s).1.
Proof. intros Hm. apply Hm. Qed.

(** X27: the material block does not fail on the color.  With a
    principled node that has at least one input and the parameters
    [diffuse_color], [strength] and [alpha] present, it runs to the end
    for every value of [diffuse_color], a malformed one included, and
    the node keeps its sockets. *)
Theorem set_material_settings_robust (parse : string -> option float)
    (params : gmap string pyval) (st : bpy_data) (n : nat) :
  principled_inputs "Material.001" n st -> (0 < n)%nat ->
  is_Some (params !! "diffuse_color") ->
  is_Some (params !! "strength") ->
  is_Some (params !! "alpha") ->
  (set_material_settings parse params st).2 = Ok tt
  /\ principled_inputs "Material.001" n
       (set_material_settings parse params st).1.
Proof.
  intros Hst Hn [color Hcolor] [strength Hstrength] [alpha Halpha].
  pose proof Hst as (mat & bsdf & Hmat & Hbsdf & Hlen).
  enough (exists a, (set_material_settings parse params st).2 = Ok a
                    /\ principled_inputs "Material.001" n
                         (set_material_settings parse params st).1)
    as ([] & Hok & Hkept) by auto.
  unfold set_material_settings. rewrite host_bind_run. unfold get_state.
  cbv beta iota. rewrite Hmat, Hbsdf. cbv zeta.
  apply (triple_run (principled_inputs "Material.001" n)
           (fun _ => principled_inputs "Material.001" n)); [|assumption].
  repeat first
    [ apply triple_ret
    | apply triple_lift;
      first [ apply safe_rgba_ok
            | unfold py_param;
              rewrite ?Hcolor, ?Hstrength, ?Halpha; eexists; reflexivity ]
    | apply on_socket_modify_triple; lia
    | eapply triple_bind; [|intros ?]
    | match goal with
      | |- triple _ (match socket_at ?k ?ins with _ => _ end) _ =>
          let E := fresh "E" in
          unfold socket_at at 1;
          destruct (k <? length ins)%nat eqn:E;
          [apply Nat.ltb_lt in E | apply Nat.ltb_ge in E; try lia]
      | |- triple _ (match find_socket ?t ?ins with _ => _ end) _ =>
          let E := fresh "E" in
          destruct (find_socket t ins) eqn:E;
          [apply find_socket_lt in E|]
      end ].
Qed.

Lemma set_material_settings_robust_witness :
  (set_material_settings (fun _ => None)
     {[ "diffuse_color" := PStr "red"; "strength" := PFloat 0.75;
        "alpha" := PFloat 1.0 ]} sample_data).2 = Ok tt
  /\ principled_inputs "Material.001" 4
       (set_material_settings (fun _ => None)
          {[ "diffuse_color" := PStr "red"; "strength" := PFloat 0.75;
             "alpha" := PFloat 1.0 ]} sample_data).1.
Proof.
  apply (set_material_settings_robust (fun _ => None)
           {[ "diffuse_color" := PStr "red"; "strength" := PFloat 0.75;
              "alpha" := PFloat 1.0 ]} sample_data 4);
    [ | lia | eexists; reflexivity..].
  eexists _, _. repeat split; reflexivity.
Defined.


